(** * pf_lib1: peak and valley detection on motif-distribution rows

    A shallow embedding of [pf_lib1.py].  Every Python function of the
    module that takes part in the classification of a row has a Rocq
    counterpart of the same name.

    Modelling choices.
    - Numbers of the signal are real numbers ([R]): sums, means and the
      standard deviation are the exact ones, the thresholds are compared
      exactly.
    - Where the rounding of binary floating point decides, the scan
      decision and the heights of the searches are modelled a second time,
      on rows of binary64 floats (definitions with the suffix [_b64]):
      every sum, difference, product and comparison is the processor's,
      [statistics.mean] and [statistics.stdev] are those of Python 3.11
      and later.
    - The sizes of the reducer are natural numbers; the definitions with
      the suffix [_int] take any integer, as Python does.
    - Python exceptions are values of [exn]; a function that can raise
      returns a [result].
    - [scipy.signal.find_peaks] is an external primitive.  It is a
      parameter of the development, and every call made to it is recorded
      in the [world], next to the lines written to the output file.
    - [categorize_msd_file_into_tf_regulation] starts from the values that
      [os.path.basename(...).split('_')[0]] and [read_mds_file] deliver
      ([sra], [ids], [raw_data]); neither name is defined in the module. *)

From Stdlib Require Import List Arith ZArith Lia Bool String Ascii.
From Stdlib Require Import DecimalString Reals Lra Sorted.
From Stdlib Require PrimFloat FloatOps SpecFloat Uint63.
Import ListNotations.
Import PrimFloat.PrimFloatNotations.

Set Implicit Arguments.

(** Python's [len] on lists. *)
Abbreviation len := List.length.

(** ** Exceptions and results *)

Inductive exn : Type :=
| ValueError
| StatisticsError
| IndexError
| AttributeError
| OverflowError.

Inductive result (A : Type) : Type :=
| Ok (a : A)
| Raise (e : exn).

Arguments Ok {A} a.
Arguments Raise {A} e.

Definition rbind {A B} (r : result A) (k : A -> result B) : result B :=
  match r with
  | Ok a => k a
  | Raise e => Raise e
  end.

Declare Scope result_scope.
Delimit Scope result_scope with result.

Notation "x <- c1 ;; c2" := (rbind c1 (fun x => c2))
  (at level 61, c1 at next level, right associativity) : result_scope.
Notation "' pat <- c1 ;; c2" := (rbind c1 (fun x => match x with pat => c2 end))
  (at level 61, pat pattern, c1 at next level, right associativity) : result_scope.

(** [mapM f l] runs [f] on the elements of [l] from left to right and stops
    at the first exception, as a [for] loop that appends [f x] does. *)
Fixpoint mapM {A B} (f : A -> result B) (l : list A) : result (list B) :=
  match l with
  | [] => Ok []
  | x :: t =>
      match f x with
      | Ok y => match mapM f t with
                | Ok ys => Ok (y :: ys)
                | Raise e => Raise e
                end
      | Raise e => Raise e
      end
  end.

(** ** Python built-ins and the [statistics] module *)

Open Scope R_scope.

(** [sum(lst)]: left to right, starting from 0. *)
Definition sum (lst : list R) : R := fold_left Rplus lst 0.

(** [statistics.mean]: raises on empty data. *)
Definition mean (data : list R) : result R :=
  match data with
  | [] => Raise StatisticsError
  | _ => Ok (sum data / INR (len data))
  end.

(** [statistics.stdev]: the square root of the sample variance; raises when
    there are fewer than two data points. *)
Definition stdev (data : list R) : result R :=
  match data with
  | [] | [_] => Raise StatisticsError
  | _ =>
      let m := sum data / INR (len data) in
      Ok (sqrt (sum (map (fun x => (x - m) * (x - m)) data)
                / INR (len data - 1)))
  end.

(** [max(lst)]: raises on an empty sequence. *)
Definition max (lst : list R) : result R :=
  match lst with
  | [] => Raise ValueError
  | x :: t => Ok (fold_left Rmax t x)
  end.

Definition Rleb (a b : R) : bool := if Rle_dec a b then true else false.

Fixpoint insert_sorted (x : R) (l : list R) : list R :=
  match l with
  | [] => [x]
  | y :: t => if Rleb x y then x :: l else y :: insert_sorted x t
  end.

Definition sorted (l : list R) : list R := fold_right insert_sorted [] l.

(** [statistics.median]: raises on empty data; the middle value, or the mean
    of the two middle values. *)
Definition median (data : list R) : result R :=
  match data with
  | [] => Raise StatisticsError
  | _ =>
      let s := sorted data in
      let n := len data in
      if Nat.odd n then Ok (nth (n / 2) s 0)
      else Ok ((nth (n / 2 - 1) s 0 + nth (n / 2) s 0) / 2)
  end.

Close Scope R_scope.

(** [range(start, stop, step)] for a positive [step]; [fuel] bounds the number
    of elements ([stop] is always enough). *)
Fixpoint range_from (fuel i stop step : nat) : list nat :=
  match fuel with
  | O => []
  | S fuel' =>
      if i <? stop then i :: range_from fuel' (i + step) stop step else []
  end.

Definition range (start stop step : nat) : list nat :=
  range_from stop start stop step.

(** [lst[i:j]] for [0 <= i <= j]. *)
Definition slice {A} (lst : list A) (i j : nat) : list A :=
  firstn (j - i) (skipn i lst).

(** ** [_reduce_data_for_peak_detection] *)

(** [bucket_reduction]: the successive [n]-sized chunks of [lst].
    [range] refuses a zero step. *)
Definition bucket_reduction (lst : list R) (n : nat) : result (list (list R)) :=
  if n =? 0 then Raise ValueError
  else Ok (map (fun i => slice lst i (i + n)) (range 0 (len lst) n)).

(** [bucket_smooth]: the rolling windows [lst[i:i+n]] for
    [i in range(0, len(lst) - n, 1)].  A negative [len(lst) - n] gives an
    empty range, as the truncated subtraction does. *)
Definition bucket_smooth (lst : list R) (n : nat) : list (list R) :=
  map (fun i => slice lst i (i + n)) (range 0 (len lst - n) 1).

Definition bucketed_row_of (raw_row : list R) (reduce_size : nat)
  : result (list R) :=
  (chunks <- bucket_reduction raw_row reduce_size ;;
   Ok (map sum chunks))%result.

Definition _reduce_data_for_peak_detection
  (raw_row : list R) (reduce_size smooth_size : nat) : result (list R) :=
  (bucketed_row <- bucketed_row_of raw_row reduce_size ;;
   smoothed_row <- mapM mean (bucket_smooth bucketed_row smooth_size) ;;
   Ok smoothed_row)%result.

(** *** The reducer with sizes that are any integer

    The same function, its two sizes being Python integers of either sign:
    [range] counts down for a negative step, a slice takes a negative end
    from the end of the list. *)

(** The generator of [range(start, stop, step)] for a step that is not 0:
    upwards while below [stop], downwards while above it. *)
Fixpoint range_int_from (fuel : nat) (i stop step : Z) : list Z :=
  match fuel with
  | O => []
  | S fuel' =>
      if (if (0 <? step)%Z then (i <? stop)%Z else (stop <? i)%Z)
      then i :: range_int_from fuel' (i + step)%Z stop step
      else []
  end.

(** [range(start, stop, step)]: a zero step is refused; the distance from
    [start] to [stop] is fuel enough. *)
Definition range_int (start stop step : Z) : result (list Z) :=
  if (step =? 0)%Z then Raise ValueError
  else Ok (range_int_from (Z.to_nat (Z.abs (stop - start))) start stop step).

(** An end of a slice, brought back into the list: a negative end counts
    from the end of the list, and what is still outside is clipped. *)
Definition slice_index {A} (lst : list A) (k : Z) : nat :=
  if (k <? 0)%Z then Z.to_nat (Z.max 0 (k + Z.of_nat (len lst)))
  else Nat.min (Z.to_nat k) (len lst).

(** [lst[i:j]] for any two integers. *)
Definition slice_int {A} (lst : list A) (i j : Z) : list A :=
  slice lst (slice_index lst i) (slice_index lst j).

Definition bucket_reduction_int (lst : list R) (n : Z)
  : result (list (list R)) :=
  (indices <- range_int 0 (Z.of_nat (len lst)) n ;;
   Ok (map (fun i => slice_int lst i (i + n)) indices))%result.

Definition bucket_smooth_int (lst : list R) (n : Z)
  : result (list (list R)) :=
  (indices <- range_int 0 (Z.of_nat (len lst) - n) 1 ;;
   Ok (map (fun i => slice_int lst i (i + n)) indices))%result.

Definition _reduce_data_for_peak_detection_int
  (raw_row : list R) (reduce_size smooth_size : Z) : result (list R) :=
  (chunks <- bucket_reduction_int raw_row reduce_size ;;
   let bucketed_row := map sum chunks in
   windows <- bucket_smooth_int bucketed_row smooth_size ;;
   smoothed_row <- mapM mean windows ;;
   Ok smoothed_row)%result.

(** ** [_determine_scans] *)

Open Scope R_scope.

(** The signal level of one point: 1 above the upper outlier bound, -1 below
    the lower one, 0 in between. *)
Definition signal_level (mean_y stdev_15 i : R) : Z :=
  if Rgt_dec i (mean_y + stdev_15) then 1%Z
  else if Rlt_dec i (mean_y - stdev_15) then (-1)%Z
  else 0%Z.

Close Scope R_scope.

(** [(k, sum(1 for i in g)) for k, g in groupby(signals)], the group of key
    [k] having [count] elements so far. *)
Fixpoint groupby_from (k : Z) (count : nat) (signals : list Z)
  : list (Z * nat) :=
  match signals with
  | [] => [(k, count)]
  | x :: t =>
      if (x =? k)%Z then groupby_from k (S count) t
      else (k, count) :: groupby_from x 1 t
  end.

Definition groupby_counts (signals : list Z) : list (Z * nat) :=
  match signals with
  | [] => []
  | x :: t => groupby_from x 1 t
  end.

Definition scan_threshold : nat := 5.

(** One turn of the loop over the grouped signal counts. *)
Definition scan_step (flags : bool * bool) (group : Z * nat) : bool * bool :=
  let '(peak_scan, valley_scan) := flags in
  let '(signal_value, count) := group in
  let peak_scan :=
    if (signal_value =? 1)%Z && (scan_threshold <? count) then true
    else peak_scan in
  let valley_scan :=
    if (signal_value =? -1)%Z && (scan_threshold <? count) then true
    else valley_scan in
  (peak_scan, valley_scan).

Definition _determine_scans (reduced_row : list R) : result (bool * bool) :=
  (mean_y <- mean reduced_row ;;
   stdev_y <- stdev reduced_row ;;
   let stdev_15 := (stdev_y * 1.5)%R in
   let signals := map (signal_level mean_y stdev_15) reduced_row in
   let grouped_signal_counts := groupby_counts signals in
   Ok (fold_left scan_step grouped_signal_counts (false, false)))%result.

(** ** The world: searches run and lines written *)

(** One call of [find_peaks(x, height=, distance=, prominence=, width=)]. *)
Record search_call : Type := SearchCall {
  sc_x : list R;
  sc_height : R;
  sc_distance : Z;
  sc_prominence : Z;
  sc_width : Z
}.

Record world : Type := World {
  searches : list search_call;
  written : list string
}.

Definition M (A : Type) : Type := world -> result A * world.

Definition ret {A} (a : A) : M A := fun w => (Ok a, w).

Definition bind {A B} (m : M A) (k : A -> M B) : M B :=
  fun w =>
    match m w with
    | (Ok a, w') => k a w'
    | (Raise e, w') => (Raise e, w')
    end.

Definition lift {A} (r : result A) : M A := fun w => (r, w).

Declare Scope world_scope.
Delimit Scope world_scope with world.

Notation "x <- c1 ;; c2" := (bind c1 (fun x => c2))
  (at level 61, c1 at next level, right associativity) : world_scope.
Notation "' pat <- c1 ;; c2" := (bind c1 (fun x => match x with pat => c2 end))
  (at level 61, pat pattern, c1 at next level, right associativity) : world_scope.
Notation "c1 ;; c2" := (bind c1 (fun _ => c2))
  (at level 61, right associativity) : world_scope.

(** A [for] loop whose body can raise. *)
Fixpoint for_each {A} (l : list A) (body : A -> M unit) : M unit :=
  match l with
  | [] => ret tt
  | x :: t => (body x ;; for_each t body)%world
  end.

(** [f.write(line)]. *)
Definition write (line : string) : M unit :=
  fun w => (Ok tt, World (searches w) (written w ++ [line])).

(** [open(path, "w")]: the destination starts empty. *)
Definition open_w : M unit :=
  fun w => (Ok tt, World (searches w) []).

(** ** Strings *)

Open Scope string_scope.

(** [str(n)] of an integer: its decimal notation. *)
Definition str (n : Z) : string := NilZero.string_of_int (Z.to_int n).

(** The line break. *)
Definition newline : string := String (ascii_of_nat 10) EmptyString.

(** [s.replace(old, new)] for a non-empty [old]: every occurrence of [old],
    from left to right and without overlap, becomes [new]; [skip] counts the
    characters of the occurrence under way that are still to be dropped. *)
Fixpoint replace_from (skip : nat) (s old new : string) : string :=
  match s with
  | EmptyString => EmptyString
  | String c t =>
      match skip with
      | S k => replace_from k t old new
      | O =>
          if prefix old s
          then new ++ replace_from (String.length old - 1) t old new
          else String c (replace_from 0 t old new)
      end
  end.

Definition replace (s old new : string) : string := replace_from 0 s old new.

(** ** [find_peaks_and_or_valleys] *)

Section Detection.

(** The dictionary of properties that [find_peaks] returns next to the
    indices; its content is passed through and never inspected. *)
Variable search_properties : Type.

(** [scipy.signal.find_peaks(x, height, distance, prominence, width)]. *)
Variable find_peaks :
  list R -> R -> Z -> Z -> Z -> list Z * search_properties.

(** [peak_properties] and [valley_properties] start as the empty list [[]]
    and hold a dictionary once a search has run. *)
Inductive properties : Type :=
| EmptyList
| Properties (p : search_properties).

(** A call of [find_peaks], recorded in the world. *)
Definition search (x : list R) (height : R) (distance prominence width : Z)
  : M (list Z * properties) :=
  fun w =>
    let '(indices, props) := find_peaks x height distance prominence width in
    (Ok (indices, Properties props),
     World (searches w
            ++ [SearchCall x height distance prominence width])
           (written w)).

Definition detection : Type :=
  (list R * list Z * list Z * properties * properties)%type.

Definition find_peaks_and_or_valleys
  (raw_row : list R) (reduce_size smooth_size : nat) : M detection :=
  (reduced_row <-
     lift (_reduce_data_for_peak_detection raw_row reduce_size smooth_size) ;;
   ' (peak_scan, valley_scan) <- lift (_determine_scans reduced_row) ;;
   ymax <- lift (max reduced_row) ;;
   mean_y <- lift (mean reduced_row) ;;
   median_y <- lift (median reduced_row) ;;
   stdev_y <- lift (stdev reduced_row) ;;
   let stdev_15 := (stdev_y * 1.5)%R in
   let y := reduced_row in
   ' (peaks, peak_properties) <-
     (if peak_scan
      then search y (mean_y + stdev_15)%R 20 4 3
      else ret ([], EmptyList)) ;;
   ' (valleys, valley_properties) <-
     (if valley_scan
      then
        let y_inverse := map (fun v => (ymax - v)%R) y in
        let mean_y_inverse := (ymax - mean_y)%R in
        search y_inverse (mean_y_inverse + stdev_15)%R 20 4 3
      else ret ([], EmptyList)) ;;
   ret (reduced_row, peaks, valleys, peak_properties, valley_properties)
  )%world.

(** The two searches of a row, each run or skipped as its flag says: what
    is left of the detector once the statistics are there. *)
Definition searches_of (reduced_row : list R) (peak_scan valley_scan : bool)
  (ymax mean_y stdev_y : R) : M detection :=
  (' (peaks, peak_properties) <-
     (if peak_scan
      then search reduced_row (mean_y + stdev_y * 1.5)%R 20%Z 4%Z 3%Z
      else ret ([], EmptyList)) ;;
   ' (valleys, valley_properties) <-
     (if valley_scan
      then search (map (fun v => (ymax - v)%R) reduced_row)
                     (ymax - mean_y + stdev_y * 1.5)%R 20%Z 4%Z 3%Z
      else ret ([], EmptyList)) ;;
   ret (reduced_row, peaks, valleys, peak_properties, valley_properties)
  )%world.

(** ** [categorize_msd_file_into_tf_regulation] *)

Definition reduce_size : nat := 10.
Definition smooth_size : nat := 10.

(** The category of a row, from its peak and valley counts. *)
Definition category (peak_count valley_count : nat) : string :=
  if (peak_count =? 0)%nat && (valley_count =? 0)%nat then "inactive"
  else if (peak_count =? 1)%nat && (valley_count =? 0)%nat then "active"
  else if (peak_count =? 0)%nat && (valley_count =? 1)%nat then "repressed"
  else if ((peak_count =? 2)%nat || (peak_count =? 4)%nat)
          && (valley_count =? 0)%nat then "offset"
  else "uncategorized".

(** [(old_loc + int(smooth_size/2))*reduce_size - 1500]; [int] truncates. *)
Definition new_loc (smooth_size reduce_size : nat) (old_loc : Z) : Z :=
  ((old_loc + Z.quot (Z.of_nat smooth_size) 2) * Z.of_nat reduce_size - 1500)%Z.

(** [ids[i].replace('HO_','').replace('_HUMAN.H10MO','')]. *)
Definition clean_id (id : string) : string :=
  replace (replace id "HO_" "") "_HUMAN.H10MO" "".

(** The line of one row, from the detection result. *)
Definition tf_regulation_line (peaks valleys : list Z) (id sra : string)
  : string :=
  let peak_count := len peaks in
  let valley_count := len valleys in
  let category := category peak_count valley_count in
  let tf_regulation_line :=
    str (Z.of_nat peak_count) ++ "," ++ str (Z.of_nat valley_count) ++ ","
    ++ id ++ "," ++ sra ++ "," ++ category in
  let peaks_bp := map (new_loc smooth_size reduce_size) peaks in
  let valleys_bp := map (new_loc smooth_size reduce_size) valleys in
  let tf_regulation_line :=
    fold_left
      (fun line i =>
         if (i <? len peaks_bp)%nat
         then line ++ "," ++ str (nth i peaks_bp 0%Z)
         else line ++ ",")
      (range 0 4 1) tf_regulation_line in
  let tf_regulation_line :=
    if (0 <? len valleys_bp)%nat
    then tf_regulation_line ++ "," ++ str (nth 0 valleys_bp 0%Z)
    else tf_regulation_line ++ "," in
  tf_regulation_line ++ newline.

(** [lst[i]]: raises when [i] is out of range. *)
Definition index {A} (lst : list A) (i : nat) : result A :=
  match nth_error lst i with
  | Some x => Ok x
  | None => Raise IndexError
  end.

(** The body of the loop over the rows.  The dictionary [rows_by_counts] is
    local to the function, only ever appended to and dropped on return: it
    has no counterpart here. *)
Definition process_row (sra : string) (ids : list string)
  (raw_data : list (list R)) (i : nat) : M unit :=
  (raw_data_row <- lift (index raw_data i) ;;
   ' (reduced_row, peaks, valleys, peak_properties, valley_properties) <-
     find_peaks_and_or_valleys raw_data_row reduce_size smooth_size ;;
   id <- lift (index ids i) ;;
   write (tf_regulation_line peaks valleys (clean_id id) sra))%world.

(** The function from the call of [open] on; [sra], [ids] and [raw_data] are
    what the file name and [read_mds_file] gave. *)
Definition categorize_msd_file_into_tf_regulation
  (sra : string) (ids : list string) (raw_data : list (list R)) : M unit :=
  (open_w ;;
   for_each (range 0 (len raw_data) 1) (process_row sra ids raw_data))%world.

End Detection.

Close Scope string_scope.

(** * The scan decision and the search heights in binary64

    [_determine_scans] and the lines of [find_peaks_and_or_valleys] that
    follow the reduction, on rows of Python floats.  A Python float is an
    IEEE 754 binary64 number: [+], [-], [*] and the comparisons below are
    the operations of the processor, every result rounded to the nearest
    float, ties to even. *)

Abbreviation float := PrimFloat.float.

Number Notation PrimFloat.float PrimFloat.parser PrimFloat.printer
  : float_scope.

(** ** [statistics.mean] and [statistics.stdev] on floats

    The module [statistics] computes with exact fractions and rounds once,
    at the end: [mean] converts the exact quotient of the exact sum by the
    count, [stdev] takes the correctly rounded square root of the exact
    sample variance. *)

(** A finite float is a whole number of units of [2^-1074]; an infinity
    or a nan is not. *)
Definition units (x : float) : option Z :=
  match FloatOps.Prim2SF x with
  | SpecFloat.S754_zero _ => Some 0%Z
  | SpecFloat.S754_finite s m e =>
      Some ((if s then -1 else 1) * Z.pos m * 2 ^ (e + 1074))%Z
  | _ => None
  end.

Fixpoint all_units (data : list float) : option (list Z) :=
  match data with
  | [] => Some []
  | x :: t =>
      match units x, all_units t with
      | Some k, Some ks => Some (k :: ks)
      | _, _ => None
      end
  end.

Definition total_units (ks : list Z) : Z := fold_left Z.add ks 0%Z.

(** [p / (q * 2^s)] as a fraction of whole numbers. *)
Definition shifted (p q s : Z) : Z * Z :=
  if (0 <=? s)%Z then (p, q * 2 ^ s)%Z else (p * 2 ^ (- s), q)%Z.

(** The whole part of the binary logarithm of [p / q], for positive [p]
    and [q]. *)
Definition ilog2 (p q : Z) : Z :=
  let l := (Z.log2 p - Z.log2 q)%Z in
  let '(n, d) := shifted p q l in
  if (d <=? n)%Z then l else (l - 1)%Z.

(** From [t], the whole part of twice a positive number, and whether the
    number is [t / 2] exactly: the nearest whole number, the even one on a
    tie. *)
Definition to_nearest_even (t : Z) (exact : bool) : Z :=
  let m := (t / 2)%Z in
  if Z.odd t && (negb exact || Z.odd m) then (m + 1)%Z else m.

(** The float [m * 2^s], for [0 <= m <= 2^53]; an infinity from [2^1024]
    on. *)
Definition of_binary (m s : Z) : float :=
  FloatOps.Z.ldexp (PrimFloat.of_uint63 (Uint63.of_Z m)) s.

(** The float nearest to [p / q], for [0 <= p] and [0 < q]: 53 bits from
    the leading one, fewer below [2^-1022]. *)
Definition nearest (p q : Z) : float :=
  if (p =? 0)%Z then PrimFloat.zero
  else
    let s := Z.max (ilog2 p q - 52) (-1074) in
    let '(n, d) := shifted p q (s - 1) in
    of_binary (to_nearest_even (n / d) (n mod d =? 0)%Z) s.

(** The float nearest to the square root of [p / q]. *)
Definition nearest_sqrt (p q : Z) : float :=
  if (p =? 0)%Z then PrimFloat.zero
  else
    let s := Z.max (ilog2 p q / 2 - 52) (-1074) in
    let '(n, d) := shifted p q (2 * (s - 1)) in
    let t := Z.sqrt (n / d) in
    of_binary (to_nearest_even t (t * t * d =? n)%Z) s.

Definition is_finite (x : float) : bool :=
  match units x with
  | Some _ => true
  | None => false
  end.

(** [statistics.mean] on floats.  With an infinity or a nan among the
    data, the finite data are ignored and the others are added up as
    floats. *)
Definition mean_b64 (data : list float) : result float :=
  match data with
  | [] => Raise StatisticsError
  | _ =>
      let n := Z.of_nat (len data) in
      match all_units data with
      | Some ks =>
          let t := total_units ks in
          Ok (if (t <? 0)%Z then (- nearest (- t) (n * 2 ^ 1074))%float
              else nearest t (n * 2 ^ 1074))
      | None =>
          let t :=
            fold_left PrimFloat.add
              (filter (fun x => negb (is_finite x)) data) 0%float in
          Ok (t / PrimFloat.of_uint63 (Uint63.of_Z n))%float
      end
  end.

(** [statistics.stdev] on floats.  The sample variance is
    [sum((n*x - t)^2) / (n^2 * (n - 1))], [t] being the sum of the data;
    [x] and [t] are counted in units, whence the factor [2^2148].  With an
    infinity or a nan among the data the sum of squares is a float, on
    which the look-up of [numerator] fails; a square root from [2^1024]
    on is too large for a float. *)
Definition stdev_b64 (data : list float) : result float :=
  match data with
  | [] | [_] => Raise StatisticsError
  | _ =>
      let n := Z.of_nat (len data) in
      match all_units data with
      | Some ks =>
          let t := total_units ks in
          let ss :=
            total_units (map (fun k => (n * k - t) * (n * k - t))%Z ks) in
          let root := nearest_sqrt ss (n * n * (n - 1) * 2 ^ 2148) in
          if is_finite root then Ok root else Raise OverflowError
      | None => Raise AttributeError
      end
  end.

(** [max(lst)] on floats: the first item, replaced by each later item that
    is greater than it. *)
Definition max_b64 (lst : list float) : result float :=
  match lst with
  | [] => Raise ValueError
  | x :: t =>
      Ok (fold_left (fun maxitem item =>
                       if (maxitem <? item)%float then item else maxitem)
                    t x)
  end.

(** ** [_determine_scans] on floats *)

Definition signal_level_b64 (mean_y stdev_15 i : float) : Z :=
  if (mean_y + stdev_15 <? i)%float then 1%Z
  else if (i <? mean_y - stdev_15)%float then (-1)%Z
  else 0%Z.

Definition _determine_scans_b64 (reduced_row : list float)
  : result (bool * bool) :=
  (mean_y <- mean_b64 reduced_row ;;
   stdev_y <- stdev_b64 reduced_row ;;
   let stdev_15 := (stdev_y * 1.5)%float in
   let signals := map (signal_level_b64 mean_y stdev_15) reduced_row in
   let grouped_signal_counts := groupby_counts signals in
   Ok (fold_left scan_step grouped_signal_counts (false, false)))%result.

(** ** [find_peaks_and_or_valleys] on floats, from the reduced row on *)

(** One call of [find_peaks(x, height=, distance=, prominence=, width=)]
    on floats. *)
Record search_call_b64 : Type := SearchCallB64 {
  b64_x : list float;
  b64_height : float;
  b64_distance : Z;
  b64_prominence : Z;
  b64_width : Z
}.

(** The calls of [find_peaks] that [find_peaks_and_or_valleys] makes once
    the row is reduced, in the order it makes them.  [median_y] and
    [stdev_20] are computed and never read; [median] raises on an empty
    row only, where [mean] has raised before it. *)
Definition find_peaks_and_or_valleys_b64 (reduced_row : list float)
  : result (list search_call_b64) :=
  (' (peak_scan, valley_scan) <- _determine_scans_b64 reduced_row ;;
   ymax <- max_b64 reduced_row ;;
   mean_y <- mean_b64 reduced_row ;;
   stdev_y <- stdev_b64 reduced_row ;;
   let stdev_15 := (stdev_y * 1.5)%float in
   let y := reduced_row in
   let peak_search :=
     if peak_scan
     then [SearchCallB64 y (mean_y + stdev_15)%float 20 4 3]
     else [] in
   let valley_search :=
     if valley_scan
     then
       let y_inverse := map (fun v => (ymax - v)%float) y in
       let mean_y_inverse := (ymax - mean_y)%float in
       [SearchCallB64 y_inverse (mean_y_inverse + stdev_15)%float 20 4 3]
     else [] in
   Ok (peak_search ++ valley_search))%result.

(** * Reference definitions

    What the specification says, in its own words, to be compared with the
    functions above. *)

(** The least number of chunks of [b] elements that cover [a] elements. *)
Definition div_ceil (a b : nat) : nat := (a + b - 1) / b.

(** The sum of a sequence. *)
Definition total (l : list R) : R := fold_right Rplus 0%R l.

(** Chunk number [k] of size [n]: the elements of raw index [k*n] up to, and
    excluding, [(k+1)*n]; the last chunk may be shorter. *)
Definition reference_chunks (n : nat) (raw_row : list R) : list (list R) :=
  map (fun k => firstn n (skipn (k * n) raw_row))
      (seq 0 (div_ceil (len raw_row) n)).

(** The bucketed sequence B: each chunk replaced by its sum. *)
Definition reference_bucketed (n : nat) (raw_row : list R) : list R :=
  map total (reference_chunks n raw_row).

(** The smoothed sequence: for each index of [[0, len(B) - w)], the
    arithmetic mean of the window of width [w] of B that starts there. *)
Definition reference_smoothed (w : nat) (B : list R) : list R :=
  map (fun j => (total (firstn w (skipn j B)) / INR w)%R)
      (seq 0 (len B - w)).

Definition reference_reduce (raw_row : list R) (reduce_size smooth_size : nat)
  : list R :=
  reference_smoothed smooth_size (reference_bucketed reduce_size raw_row).

(** The length of the reduced row as the specification words it: for a row
    longer than [reduce_size + smooth_size], the floor of
    [len(raw_row)/reduce_size] minus [smooth_size], exactly when the last
    chunk is full and within one of it otherwise. *)
Definition reduce_length_claim
  (raw_row : list R) (reduce_size smooth_size : nat) : Prop :=
  reduce_size + smooth_size < len raw_row ->
  exists out,
    _reduce_data_for_peak_detection raw_row reduce_size smooth_size = Ok out
    /\ (Z.abs (Z.of_nat (len out)
               - (Z.of_nat (len raw_row) / Z.of_nat reduce_size
                  - Z.of_nat smooth_size)) <= 1)%Z
    /\ (len raw_row mod reduce_size = 0 ->
        Z.of_nat (len out)
        = (Z.of_nat (len raw_row) / Z.of_nat reduce_size
           - Z.of_nat smooth_size)%Z).

(** The level of a point against the band [[lo, hi]]. *)
Inductive has_level (lo hi x : R) : Z -> Prop :=
| level_above : (x > hi)%R -> has_level lo hi x 1
| level_below : (x < lo)%R -> has_level lo hi x (-1)
| level_within : (lo <= x <= hi)%R -> has_level lo hi x 0.

(** The sequence of levels that a list of (level, run-length) pairs stands
    for. *)
Definition expand (runs : list (Z * nat)) : list Z :=
  flat_map (fun run => repeat (fst run) (snd run)) runs.

(** Consecutive runs have different levels. *)
Fixpoint adjacent_differ (runs : list (Z * nat)) : Prop :=
  match runs with
  | [] => True
  | run :: rest =>
      match rest with
      | [] => True
      | next :: _ => fst run <> fst next
      end /\ adjacent_differ rest
  end.

(** [runs] is the run-length encoding of [levels]: it stands for [levels],
    in the original order, with no empty run and no run cut in two. *)
Definition run_length_encoding (levels : list Z) (runs : list (Z * nat))
  : Prop :=
  expand runs = levels
  /\ Forall (fun run => 0 < snd run) runs
  /\ adjacent_differ runs.

(** A run of [level] longer than the continuity threshold. *)
Definition long_run (level : Z) (runs : list (Z * nat)) : Prop :=
  exists n, In (level, n) runs /\ 5 < n.

(** Strict comparisons against a bound, as tests. *)
Definition exceeds (bound x : R) : bool :=
  if Rgt_dec x bound then true else false.

Definition falls_below (bound x : R) : bool :=
  if Rlt_dec x bound then true else false.

Definition not_starting (k : Z) (l : list Z) : Prop :=
  match l with
  | [] => True
  | x :: _ => x <> k
  end.

(** The category of the classifier's table. *)
Definition regulation_category (peaks valleys : nat) : string :=
  match peaks, valleys with
  | 0, 0 => "inactive"
  | 1, 0 => "active"
  | 0, 1 => "repressed"
  | 2, 0 => "offset"
  | 4, 0 => "offset"
  | _, _ => "uncategorized"
  end.

(** Field number [k] of a list of positions: position [k] in original
    coordinates when there is one, the empty field otherwise. *)
Definition position_field (indices : list Z) (k : nat) : string :=
  match nth_error indices k with
  | Some i =>
      str ((i + Z.of_nat smooth_size / 2) * Z.of_nat reduce_size - 1500)
  | None => EmptyString
  end.

(** The ten fields of a regulation record, in order. *)
Definition regulation_fields (peaks valleys : list Z) (id sra : string)
  : list string :=
  [ str (Z.of_nat (len peaks)); str (Z.of_nat (len valleys)); id; sra;
    regulation_category (len peaks) (len valleys);
    position_field peaks 0; position_field peaks 1;
    position_field peaks 2; position_field peaks 3;
    position_field valleys 0 ].

(** A row whose reduced row has fewer than two points. *)
Definition too_short (raw_row : list R) : bool :=
  match _reduce_data_for_peak_detection raw_row reduce_size smooth_size with
  | Ok reduced_row => len reduced_row <? 2
  | Raise _ => false
  end.

(** A run that survives its short rows, as the specification asks: it ends
    without an exception, one line written for each row that is not too
    short. *)
Definition skips_short_rows {search_properties : Type}
  (find_peaks : list R -> R -> Z -> Z -> Z -> list Z * search_properties)
  (sra : string) (ids : list string) (raw_data : list (list R)) : Prop :=
  Exists (fun raw_row => too_short raw_row = true) raw_data ->
  exists world1,
    categorize_msd_file_into_tf_regulation find_peaks sra ids raw_data
      (World [] [])
    = (Ok tt, world1)
    /\ len (written world1)
       = len (filter (fun raw_row => negb (too_short raw_row)) raw_data).

(** [old in s], for a non-empty [old]: [old] occurs somewhere in [s]. *)
Fixpoint occurs (old s : string) : bool :=
  match s with
  | EmptyString => false
  | String _ t => prefix old s || occurs old t
  end.

(** An occurrence of [old] in [name ++ rest] starts inside [name]. *)
Fixpoint starts_within (old name rest : string) : bool :=
  match name with
  | EmptyString => false
  | String _ t => prefix old (name ++ rest) || starts_within old t rest
  end.


(** ** Sample data *)

(** A row of 120 zeros: twelve buckets, two reduced points. *)
Definition zero_raw : list R := repeat 0%R 120.

(** A search that finds nothing, to run the detector on sample rows. *)
Definition sample_find_peaks
  (x : list R) (height : R) (distance prominence width : Z)
  : list Z * unit := ([], tt).

(** Sixteen points at 0 then six at 22, and the raw row of unit buckets and
    unit windows that reduces to it. *)
Definition peak_row : list R := repeat 0%R 16 ++ repeat 22%R 6.

(** Sixteen points at 22 then six at 0. *)
Definition valley_row : list R := repeat 22%R 16 ++ repeat 0%R 6.
Definition valley_raw : list R := valley_row ++ [0%R].

(** A reduced row of floats: thirteen points at 12.9, six at 3.8, three at
    12.9 and six at 22, each the float that Python reads the decimal as. *)
Definition tie_row : list float :=
  repeat 0x1.9cccccccccccdp+3%float 13
  ++ repeat 0x1.e666666666666p+1%float 6
  ++ repeat 0x1.9cccccccccccdp+3%float 3
  ++ repeat 22%float 6.

(** * Facts *)

(** ** Ranges and slices *)

Lemma div_ceil_0 b : 0 < b -> div_ceil 0 b = 0.
Proof. intros Hb. unfold div_ceil. apply Nat.div_small. lia. Qed.

Lemma div_ceil_step a b :
  0 < b -> 0 < a -> div_ceil a b = S (div_ceil (a - b) b).
Proof.
  intros Hb Ha. unfold div_ceil.
  destruct (le_lt_dec b a) as [Hle | Hlt].
  - replace (a + b - 1) with ((a - b + b - 1) + 1 * b) by lia.
    rewrite Nat.div_add by lia. lia.
  - replace (a - b) with 0 by lia.
    rewrite (Nat.div_small (0 + b - 1) b) by lia.
    replace (a + b - 1) with ((a - 1) + 1 * b) by lia.
    rewrite Nat.div_add by lia. rewrite Nat.div_small by lia. lia.
Qed.

Lemma div_ceil_floor a b :
  0 < b -> div_ceil a b = a / b + (if a mod b =? 0 then 0 else 1).
Proof.
  intros Hb. unfold div_ceil.
  pose proof (Nat.div_mod_eq a b) as E.
  pose proof (Nat.mod_upper_bound a b ltac:(lia)) as U.
  destruct (a mod b =? 0) eqn:Hr.
  - apply Nat.eqb_eq in Hr.
    replace (a + b - 1) with ((b - 1) + (a / b) * b) by nia.
    rewrite Nat.div_add by lia. rewrite Nat.div_small by lia. lia.
  - apply Nat.eqb_neq in Hr.
    replace (a + b - 1) with ((a mod b - 1) + (a / b + 1) * b) by nia.
    rewrite Nat.div_add by lia. rewrite Nat.div_small by lia. lia.
Qed.

(** The generator of [range] yields [i], [i + step], ... below [stop]. *)
Lemma range_from_spec fuel : forall i stop step,
  0 < step -> stop <= i + fuel ->
  range_from fuel i stop step
  = map (fun k => i + k * step) (seq 0 (div_ceil (stop - i) step)).
Proof.
  induction fuel as [| fuel IH]; intros i stop step Hs Hf.
  - replace (stop - i) with 0 by lia. now rewrite div_ceil_0.
  - simpl. destruct (i <? stop) eqn:Hlt.
    + apply Nat.ltb_lt in Hlt.
      rewrite (div_ceil_step (a := stop - i)) by lia.
      rewrite IH by lia. simpl. f_equal; [lia |].
      rewrite <- seq_shift, map_map.
      replace (stop - (i + step)) with (stop - i - step) by lia.
      apply map_ext. intros k. lia.
    + apply Nat.ltb_ge in Hlt.
      replace (stop - i) with 0 by lia. now rewrite div_ceil_0.
Qed.

Lemma range_step stop step :
  0 < step ->
  range 0 stop step = map (fun k => k * step) (seq 0 (div_ceil stop step)).
Proof.
  intros Hs. unfold range. rewrite range_from_spec by lia.
  rewrite Nat.sub_0_r. apply map_ext. intros k. lia.
Qed.

Lemma range_unit stop : range 0 stop 1 = seq 0 stop.
Proof.
  rewrite range_step by lia.
  replace (div_ceil stop 1) with stop
    by (unfold div_ceil; rewrite Nat.div_1_r; lia).
  rewrite <- (map_id (seq 0 stop)) at 2.
  apply map_ext. intros k. lia.
Qed.

Lemma slice_window {A} (lst : list A) i n :
  slice lst i (i + n) = firstn n (skipn i lst).
Proof. unfold slice. f_equal. lia. Qed.

(** ** The reducer *)

Lemma fold_left_Rplus l : forall a, fold_left Rplus l a = (a + total l)%R.
Proof.
  induction l as [| x t IH]; intros a; simpl.
  - lra.
  - rewrite IH. lra.
Qed.

Lemma sum_total l : sum l = total l.
Proof. unfold sum. rewrite fold_left_Rplus. lra. Qed.

Lemma mapM_ok {A B} (f : A -> result B) (g : A -> B) l :
  (forall x, In x l -> f x = Ok (g x)) -> mapM f l = Ok (map g l).
Proof.
  induction l as [| x t IH]; intros H; simpl.
  - reflexivity.
  - rewrite (H x) by now left.
    rewrite IH by (intros y Hy; apply H; now right).
    reflexivity.
Qed.

Lemma mean_nonempty data :
  0 < len data -> mean data = Ok (total data / INR (len data))%R.
Proof.
  destruct data as [| x t]; simpl len; intros H; [lia |].
  unfold mean. now rewrite sum_total.
Qed.

Lemma bucketed_row_of_ok raw_row n :
  0 < n -> bucketed_row_of raw_row n = Ok (reference_bucketed n raw_row).
Proof.
  intros Hn. unfold bucketed_row_of, bucket_reduction.
  destruct (n =? 0) eqn:E; [apply Nat.eqb_eq in E; lia |].
  simpl. f_equal.
  unfold reference_bucketed, reference_chunks.
  rewrite range_step by assumption.
  rewrite !map_map. apply map_ext. intros k.
  now rewrite slice_window, sum_total.
Qed.

Lemma len_reference_bucketed n raw_row :
  len (reference_bucketed n raw_row) = div_ceil (len raw_row) n.
Proof.
  unfold reference_bucketed, reference_chunks.
  now rewrite !length_map, length_seq.
Qed.

Lemma smoothing_ok B w :
  0 < w -> mapM mean (bucket_smooth B w) = Ok (reference_smoothed w B).
Proof.
  intros Hw. unfold bucket_smooth, reference_smoothed.
  rewrite range_unit.
  rewrite (mapM_ok mean (fun win => (total win / INR w)%R)).
  - now rewrite map_map; f_equal; apply map_ext; intros j;
      rewrite slice_window.
  - intros win Hin. apply in_map_iff in Hin as (j & <- & Hj).
    apply in_seq in Hj. rewrite slice_window.
    assert (Hl : len (firstn w (skipn j B)) = w)
      by (rewrite length_firstn, length_skipn; lia).
    rewrite mean_nonempty by lia. now rewrite Hl.
Qed.

Lemma reduce_ok raw_row n w :
  0 < n -> 0 < w ->
  _reduce_data_for_peak_detection raw_row n w
  = Ok (reference_reduce raw_row n w).
Proof.
  intros Hn Hw. unfold _reduce_data_for_peak_detection.
  rewrite bucketed_row_of_ok by assumption. simpl.
  now rewrite smoothing_ok.
Qed.

Lemma len_reference_reduce raw_row n w :
  len (reference_reduce raw_row n w) = div_ceil (len raw_row) n - w.
Proof.
  unfold reference_reduce, reference_smoothed.
  now rewrite length_map, length_seq, len_reference_bucketed.
Qed.

(** The reference chunks partition the row. *)

Lemma reference_chunks_cons n raw_row :
  0 < n -> raw_row <> [] ->
  reference_chunks n raw_row
  = firstn n raw_row :: reference_chunks n (skipn n raw_row).
Proof.
  intros Hn Hne. unfold reference_chunks.
  assert (0 < len raw_row) by (destruct raw_row; simpl; [congruence | lia]).
  rewrite (div_ceil_step (a := len raw_row)) by lia.
  rewrite length_skipn. simpl. f_equal.
  rewrite <- seq_shift, map_map. apply map_ext. intros k.
  rewrite skipn_skipn. do 2 f_equal. lia.
Qed.

Lemma reference_chunks_nil n : 0 < n -> reference_chunks n [] = [].
Proof. intros Hn. unfold reference_chunks. simpl. now rewrite div_ceil_0. Qed.

Lemma concat_reference_chunks n : 0 < n -> forall fuel raw_row,
  len raw_row <= fuel -> List.concat (reference_chunks n raw_row) = raw_row.
Proof.
  intros Hn. induction fuel as [| fuel IH]; intros raw_row Hf.
  - destruct raw_row; [now rewrite reference_chunks_nil | simpl in Hf; lia].
  - destruct raw_row as [| x t]; [now rewrite reference_chunks_nil |].
    rewrite reference_chunks_cons by (assumption || discriminate).
    simpl List.concat. rewrite IH.
    + apply firstn_skipn.
    + rewrite length_skipn. change (len (x :: t)) with (S (len t)) in *. lia.
Qed.

Lemma len_reference_chunk n raw_row k :
  k < div_ceil (len raw_row) n ->
  len (nth k (reference_chunks n raw_row) [])
  = Nat.min n (len raw_row - k * n).
Proof.
  intros Hk. unfold reference_chunks.
  set (chunk := fun k => firstn n (skipn (k * n) raw_row)).
  rewrite (nth_indep _ [] (chunk 0)) by now rewrite length_map, length_seq.
  rewrite map_nth, seq_nth by assumption. unfold chunk.
  now rewrite length_firstn, length_skipn.
Qed.

Lemma lt_div_ceil k a b : 0 < b -> k < div_ceil a b -> k * b < a.
Proof.
  intros Hb Hk. unfold div_ceil in Hk.
  destruct (le_lt_dec a (k * b)) as [Hle | Hlt]; [| assumption].
  exfalso.
  assert ((a + b - 1) / b < S k)
    by (apply Nat.Div0.div_lt_upper_bound; nia).
  lia.
Qed.

(** C6.  For positive sizes the reducer returns the reference sequence:
    the row is cut into consecutive chunks of [reduce_size] elements that
    put together give the row back, all of them full but possibly the last,
    each chunk becomes its sum, and every index of [[0, len(B) - smooth_size)]
    yields the arithmetic mean of the window of B that starts there. *)
Theorem reduce_refines_reference raw_row reduce_size smooth_size :
  0 < reduce_size -> 0 < smooth_size ->
  _reduce_data_for_peak_detection raw_row reduce_size smooth_size
  = Ok (reference_reduce raw_row reduce_size smooth_size)
  /\ List.concat (reference_chunks reduce_size raw_row) = raw_row
  /\ (forall k, k < len (reference_chunks reduce_size raw_row) ->
        1 <= len (nth k (reference_chunks reduce_size raw_row) [])
          <= reduce_size)
  /\ (forall k, S k < len (reference_chunks reduce_size raw_row) ->
        len (nth k (reference_chunks reduce_size raw_row) []) = reduce_size).
Proof.
  intros Hn Hw.
  assert (Hcount : len (reference_chunks reduce_size raw_row)
                   = div_ceil (len raw_row) reduce_size)
    by (unfold reference_chunks; now rewrite length_map, length_seq).
  split; [now apply reduce_ok |].
  split; [now apply concat_reference_chunks with (fuel := len raw_row) |].
  rewrite Hcount. split; intros k Hk.
  - rewrite len_reference_chunk by assumption.
    apply lt_div_ceil in Hk; lia.
  - rewrite len_reference_chunk by lia.
    apply lt_div_ceil in Hk; lia.
Qed.

Lemma reduce_refines_reference_witness :
  _reduce_data_for_peak_detection [1; 2; 3; 4; 5]%R 2 1
  = Ok (reference_reduce [1; 2; 3; 4; 5]%R 2 1)
  /\ len (reference_reduce [1; 2; 3; 4; 5]%R 2 1) = 2.
Proof.
  split.
  - apply (reduce_refines_reference [1; 2; 3; 4; 5]%R (reduce_size := 2)
             (smooth_size := 1)); lia.
  - reflexivity.
Defined.

(** C2, as the specification states it, fails: a row of 21 points is longer
    than [10 + 10], its three buckets are fewer than the window is wide,
    and the reduced row is empty, eight short of [floor(21/10) - 10]. *)
Lemma reduce_length_claim_fails :
  _reduce_data_for_peak_detection (repeat 0%R 21) 10 10 = Ok []
  /\ ~ reduce_length_claim (repeat 0%R 21) 10 10.
Proof.
  assert (Hrun : _reduce_data_for_peak_detection (repeat 0%R 21) 10 10
                 = Ok []) by reflexivity.
  split; [exact Hrun |].
  intros H. destruct H as (out & E & Habs & _).
  - rewrite repeat_length. lia.
  - rewrite Hrun in E. injection E as <-.
    rewrite repeat_length in Habs.
    change (Z.of_nat 21 / Z.of_nat 10)%Z with 2%Z in Habs.
    simpl in Habs. lia.
Qed.

(** C2, amended.  For positive sizes the bucketed sequence B has
    [ceil(len(raw_row)/reduce_size)] elements and the reducer returns a
    sequence; when B has at least [smooth_size] elements its length is the
    floor of [len(raw_row)/reduce_size] minus [smooth_size], plus one when
    the last chunk is partial; when B has at most [smooth_size] elements it
    is empty; and the result is the only one. *)
Theorem reduce_length raw_row reduce_size smooth_size :
  0 < reduce_size -> 0 < smooth_size ->
  exists B out,
    bucketed_row_of raw_row reduce_size = Ok B
    /\ len B = div_ceil (len raw_row) reduce_size
    /\ _reduce_data_for_peak_detection raw_row reduce_size smooth_size = Ok out
    /\ (smooth_size <= len B ->
        Z.of_nat (len out)
        = (Z.of_nat (len raw_row) / Z.of_nat reduce_size
           - Z.of_nat smooth_size
           + (if (len raw_row mod reduce_size =? 0)%nat then 0 else 1))%Z)
    /\ (len B <= smooth_size -> out = [])
    /\ (forall out',
          _reduce_data_for_peak_detection raw_row reduce_size smooth_size
          = Ok out' -> out' = out).
Proof.
  intros Hn Hw.
  exists (reference_bucketed reduce_size raw_row),
         (reference_reduce raw_row reduce_size smooth_size).
  rewrite len_reference_bucketed.
  split; [now apply bucketed_row_of_ok |].
  split; [reflexivity |].
  split; [now apply reduce_ok |].
  split; [| split].
  - intros Hle. rewrite len_reference_reduce.
    rewrite div_ceil_floor in * by assumption.
    rewrite <- Nat2Z.inj_div.
    destruct (len raw_row mod reduce_size =? 0); lia.
  - intros Hle.
    apply length_zero_iff_nil. rewrite len_reference_reduce. lia.
  - intros out' E. rewrite reduce_ok in E by assumption. congruence.
Qed.

Lemma reduce_length_witness :
  exists B out,
    bucketed_row_of (repeat 1%R 7) 2 = Ok B
    /\ len B = 4
    /\ _reduce_data_for_peak_detection (repeat 1%R 7) 2 3 = Ok out
    /\ len out = 1.
Proof.
  destruct (reduce_length (repeat 1%R 7) (reduce_size := 2) (smooth_size := 3))
    as (B & out & HB & HlB & Hout & Hlen & _); [lia | lia |].
  exists B, out. repeat split; try assumption.
  rewrite HlB in Hlen. apply Nat2Z.inj. rewrite Hlen.
  - reflexivity.
  - unfold div_ceil. simpl. lia.
Defined.

(** ** The scan decider *)

Lemma stdev_two_points data :
  2 <= len data ->
  exists v, stdev data = Ok (sqrt v).
Proof.
  destruct data as [| x [| y t]]; simpl len; intros H; try lia.
  eexists. reflexivity.
Qed.

Lemma stdev_nonneg data s : stdev data = Ok s -> (0 <= s)%R.
Proof.
  destruct data as [| x [| y t]]; try discriminate.
  intros E. injection E as <-. apply sqrt_pos.
Qed.

Lemma signal_level_has_level mean_y stdev_15 x :
  has_level (mean_y - stdev_15) (mean_y + stdev_15) x
            (signal_level mean_y stdev_15 x).
Proof.
  unfold signal_level.
  destruct (Rgt_dec x (mean_y + stdev_15)) as [Hgt | Hle].
  - now apply level_above.
  - destruct (Rlt_dec x (mean_y - stdev_15)) as [Hlt | Hge].
    + now apply level_below.
    + apply level_within; lra.
Qed.

Lemma groupby_from_head signals : forall k c,
  exists c' rest, groupby_from k c signals = (k, c') :: rest /\ c <= c'.
Proof.
  induction signals as [| x t IH]; intros k c; simpl.
  - exists c, []. split; [reflexivity | lia].
  - destruct (x =? k)%Z.
    + destruct (IH k (S c)) as (c' & rest & E & Hc).
      exists c', rest. split; [assumption | lia].
    + exists c, (groupby_from x 1 t). split; [reflexivity | lia].
Qed.

Lemma groupby_from_rle signals : forall k c,
  0 < c ->
  run_length_encoding (repeat k c ++ signals) (groupby_from k c signals).
Proof.
  unfold run_length_encoding.
  induction signals as [| x t IH]; intros k c Hc; simpl.
  - repeat split; auto.
  - destruct (x =? k)%Z eqn:E.
    + apply Z.eqb_eq in E. subst x.
      destruct (IH k (S c)) as (He & Hp & Ha); [lia |].
      repeat split; try assumption.
      rewrite He. change (repeat k (S c)) with (k :: repeat k c).
      now rewrite repeat_cons, <- app_assoc.
    + apply Z.eqb_neq in E.
      destruct (IH x 1) as (He & Hp & Ha); [lia |].
      destruct (groupby_from_head t x 1) as (c' & rest & Eg & _).
      repeat split.
      * simpl. now rewrite He.
      * constructor; assumption.
      * rewrite Eg. simpl. congruence.
      * assumption.
Qed.

Lemma groupby_counts_rle signals :
  run_length_encoding signals (groupby_counts signals).
Proof.
  destruct signals as [| x t].
  - repeat split; constructor.
  - apply (groupby_from_rle t x (c := 1)). lia.
Qed.

Lemma scan_loop groups : forall peak_scan valley_scan,
  fold_left scan_step groups (peak_scan, valley_scan)
  = (peak_scan
     || existsb (fun g => (fst g =? 1)%Z && (scan_threshold <? snd g)) groups,
     valley_scan
     || existsb (fun g => (fst g =? -1)%Z && (scan_threshold <? snd g)) groups).
Proof.
  induction groups as [| [k c] t IH]; intros p v; simpl.
  - now rewrite !orb_false_r.
  - rewrite IH.
    destruct ((k =? 1)%Z && (scan_threshold <? c)),
             ((k =? -1)%Z && (scan_threshold <? c)), p, v; reflexivity.
Qed.

Lemma existsb_long_run level groups :
  existsb (fun g => (fst g =? level)%Z && (scan_threshold <? snd g)) groups
  = true
  <-> long_run level groups.
Proof.
  unfold long_run, scan_threshold. rewrite existsb_exists. split.
  - intros ([k c] & Hin & Hb). simpl in Hb.
    apply andb_true_iff in Hb as (Hk & Hc).
    apply Z.eqb_eq in Hk. apply Nat.ltb_lt in Hc. subst k.
    now exists c.
  - intros (n & Hin & Hn). exists (level, n). split; [assumption |].
    simpl. rewrite Z.eqb_refl. now apply Nat.ltb_lt.
Qed.

Lemma in_run_in_expand level n runs :
  In (level, n) runs -> 0 < n -> In level (expand runs).
Proof.
  intros Hin Hn. unfold expand. apply in_flat_map.
  exists (level, n). split; [assumption |].
  simpl. destruct n; [lia | now left].
Qed.

(** A sequence has one run-length encoding only. *)

Lemma repeat_app_inj k : forall c c' a b,
  not_starting k a -> not_starting k b ->
  repeat k c ++ a = repeat k c' ++ b -> c = c' /\ a = b.
Proof.
  induction c as [| c IH]; destruct c' as [| c']; simpl; intros a b Ha Hb E.
  - now split.
  - subst a. simpl in Ha. congruence.
  - subst b. simpl in Hb. congruence.
  - injection E as E. destruct (IH c' a b Ha Hb E) as [-> ->]. now split.
Qed.

Lemma expand_not_starting k c rest :
  Forall (fun run => 0 < snd run) rest ->
  adjacent_differ ((k, c) :: rest) ->
  not_starting k (expand rest).
Proof.
  intros Hp [Hd _]. destruct rest as [| [k' c'] rest']; simpl; [exact I |].
  inversion Hp as [| ? ? Hc' _]; subst. simpl in Hc', Hd.
  destruct c'; [lia |]. simpl. congruence.
Qed.

Lemma run_length_encoding_unique runs1 : forall levels runs2,
  run_length_encoding levels runs1 -> run_length_encoding levels runs2 ->
  runs1 = runs2.
Proof.
  induction runs1 as [| [k c] t1 IH]; intros levels runs2
    (E1 & P1 & A1) (E2 & P2 & A2).
  - simpl in E1. subst levels.
    destruct runs2 as [| [k' c'] t2]; [reflexivity |].
    inversion P2 as [| ? ? Hc' _]; subst. simpl in Hc'.
    destruct c'; [lia | discriminate].
  - inversion P1 as [| ? ? Hc P1']; subst. simpl in Hc.
    destruct runs2 as [| [k' c'] t2].
    + simpl in E2. destruct c; [lia | discriminate].
    + inversion P2 as [| ? ? Hc' P2']; subst. simpl in Hc'.
      change (repeat k' c' ++ expand t2 = repeat k c ++ expand t1) in E2.
      assert (k' = k) as ->
        by (destruct c, c'; try lia; simpl in E2; congruence).
      apply repeat_app_inj in E2 as [-> E2];
        [| now apply expand_not_starting with (c := c')
         | now apply expand_not_starting with (c := c)].
      f_equal. apply (IH (expand t1)).
      * repeat split; [assumption | apply A1].
      * repeat split; [assumption | assumption | apply A2].
Qed.

Lemma has_level_unique lo hi x l1 l2 :
  (lo <= hi)%R -> has_level lo hi x l1 -> has_level lo hi x l2 -> l1 = l2.
Proof.
  intros Hb H1 H2. destruct H1, H2; reflexivity || lra.
Qed.

(** What the decider computes, for a row of two points or more. *)
Lemma determine_scans_ok reduced_row :
  2 <= len reduced_row ->
  exists mean_y stdev_y,
    mean reduced_row = Ok mean_y
    /\ stdev reduced_row = Ok stdev_y
    /\ (0 <= stdev_y)%R
    /\ forall groups,
        groups = groupby_counts
                   (map (signal_level mean_y (stdev_y * 1.5)) reduced_row) ->
        _determine_scans reduced_row
        = Ok (existsb (fun g => (fst g =? 1)%Z && (scan_threshold <? snd g))
                      groups,
              existsb (fun g => (fst g =? -1)%Z && (scan_threshold <? snd g))
                      groups).
Proof.
  intros Hlen.
  destruct (stdev_two_points reduced_row Hlen) as (v & Hs).
  exists (total reduced_row / INR (len reduced_row))%R, (sqrt v).
  split; [apply mean_nonempty; lia |].
  split; [assumption |].
  split; [apply sqrt_pos |].
  intros groups ->. unfold _determine_scans.
  rewrite mean_nonempty by lia. rewrite Hs. simpl.
  now rewrite scan_loop.
Qed.

Lemma total_constant c row :
  Forall (eq c) row -> total row = (INR (len row) * c)%R.
Proof.
  induction 1 as [| x t <- _ IH].
  - simpl. lra.
  - change (total (c :: t)) with (c + total t)%R.
    rewrite IH. change (len (c :: t)) with (S (len t)).
    rewrite S_INR. lra.
Qed.

Lemma mean_constant c row mean_y :
  Forall (eq c) row -> mean row = Ok mean_y -> mean_y = c.
Proof.
  intros Hc Hm. destruct row as [| x t]; [discriminate |].
  rewrite mean_nonempty in Hm by (simpl; lia).
  assert (E : mean_y = (total (x :: t) / INR (len (x :: t)))%R)
    by congruence.
  rewrite E, (total_constant Hc).
  field. apply not_0_INR. discriminate.
Qed.

(** On a constant row every point is at level 0. *)
Lemma signal_level_constant c s : (0 <= s)%R -> signal_level c s c = 0%Z.
Proof.
  intros Hs. unfold signal_level.
  destruct (Rgt_dec c (c + s)); [lra |].
  destruct (Rlt_dec c (c - s)); [lra | reflexivity].
Qed.

Lemma no_long_run_of_absent level levels runs :
  run_length_encoding levels runs -> ~ In level levels ->
  existsb (fun g => (fst g =? level)%Z && (scan_threshold <? snd g)) runs
  = false.
Proof.
  intros (E & _ & _) Hnot.
  apply not_true_is_false. intros Hb.
  apply existsb_long_run in Hb as (n & Hin & Hn).
  apply Hnot. rewrite <- E. apply in_run_in_expand with (n := n); [assumption | lia].
Qed.

Lemma determine_scans_constant c row :
  2 <= len row -> Forall (eq c) row ->
  _determine_scans row = Ok (false, false).
Proof.
  intros Hlen Hc.
  destruct (determine_scans_ok row Hlen) as (m & s & Hm & Hs & Hpos & Hd).
  rewrite (Hd _ eq_refl).
  pose proof (mean_constant Hc Hm) as ->.
  assert (Hlev : forall level, level <> 0%Z ->
            ~ In level (map (signal_level c (s * 1.5)) row)).
  { intros level Hl Hin. apply in_map_iff in Hin as (x & Hx & Hin).
    rewrite Forall_forall in Hc. rewrite <- (Hc x Hin) in Hx.
    rewrite signal_level_constant in Hx by lra. congruence. }
  rewrite !(@no_long_run_of_absent _ _ _ (groupby_counts_rle _))
    by (apply Hlev; lia).
  reflexivity.
Qed.

Lemma Forall2_map_fun {A B} (P : A -> B -> Prop) (f : A -> B) l :
  (forall x, P x (f x)) -> Forall2 P l (map f l).
Proof. intros H. induction l; simpl; constructor; auto. Qed.

(** C4.  On a row of two points or more the decider returns; with the
    levels of the points against the band of 1.5 standard deviations around
    the mean, and the run-length encoding of these levels, [scan_peaks] holds
    exactly when a run of level 1 is longer than 5, and [scan_valleys]
    exactly when a run of level -1 is; on a constant row both are false. *)
Theorem determine_scans_runs reduced_row :
  2 <= len reduced_row ->
  exists mean_y stdev_y levels runs peak_scan valley_scan,
    mean reduced_row = Ok mean_y
    /\ stdev reduced_row = Ok stdev_y
    /\ Forall2 (has_level (mean_y - stdev_y * 1.5) (mean_y + stdev_y * 1.5))
               reduced_row levels
    /\ run_length_encoding levels runs
    /\ _determine_scans reduced_row = Ok (peak_scan, valley_scan)
    /\ (peak_scan = true <-> long_run 1 runs)
    /\ (valley_scan = true <-> long_run (-1) runs)
    /\ (forall c, Forall (eq c) reduced_row ->
          peak_scan = false /\ valley_scan = false).
Proof.
  intros Hlen.
  destruct (determine_scans_ok reduced_row Hlen)
    as (m & s & Hm & Hs & Hpos & Hd).
  set (levels := map (signal_level m (s * 1.5)) reduced_row).
  specialize (Hd (groupby_counts levels) eq_refl).
  exists m, s, levels, (groupby_counts levels).
  eexists. eexists.
  split; [exact Hm |]. split; [exact Hs |].
  split; [apply Forall2_map_fun; intros x; apply signal_level_has_level |].
  split; [apply groupby_counts_rle |].
  split; [exact Hd |].
  split; [apply existsb_long_run |].
  split; [apply existsb_long_run |].
  intros c Hc.
  pose proof (determine_scans_constant Hlen Hc) as Hk.
  rewrite Hd in Hk. injection Hk as -> ->. now split.
Qed.

Lemma determine_scans_runs_witness :
  _determine_scans [1; 1]%R = Ok (false, false).
Proof.
  destruct (@determine_scans_runs [1; 1]%R)
    as (m & s & levels & runs & p & v & _ & _ & _ & _ & Hd & _ & _ & Hc).
  - simpl. lia.
  - destruct (Hc 1%R) as [-> ->].
    + repeat constructor.
    + exact Hd.
Defined.

Lemma determine_scans_len reduced_row flags :
  _determine_scans reduced_row = Ok flags -> 2 <= len reduced_row.
Proof.
  destruct reduced_row as [| x [| y t]]; simpl len; intros H;
    [discriminate | discriminate | lia].
Qed.

(** A long run of a level means as many points at that level. *)

Lemma count_level_in_runs level n runs :
  In (level, n) runs -> n <= count_occ Z.eq_dec (expand runs) level.
Proof.
  induction runs as [| [k c] t IH]; intros Hin; [destruct Hin |].
  change (expand ((k, c) :: t)) with (repeat k c ++ expand t).
  rewrite count_occ_app. destruct Hin as [E | Hin].
  - injection E as -> ->. rewrite count_occ_repeat_eq by reflexivity. lia.
  - specialize (IH Hin). lia.
Qed.

Lemma signal_level_one mean_y stdev_15 x :
  signal_level mean_y stdev_15 x = 1%Z
  <-> exceeds (mean_y + stdev_15) x = true.
Proof.
  unfold signal_level, exceeds.
  destruct (Rgt_dec x (mean_y + stdev_15)); [tauto |].
  destruct (Rlt_dec x (mean_y - stdev_15)); split; discriminate.
Qed.

Lemma signal_level_minus_one mean_y stdev_15 x :
  signal_level mean_y stdev_15 x = (-1)%Z ->
  falls_below (mean_y - stdev_15) x = true.
Proof.
  unfold signal_level, falls_below.
  destruct (Rgt_dec x (mean_y + stdev_15)); [discriminate |].
  destruct (Rlt_dec x (mean_y - stdev_15)); [reflexivity | discriminate].
Qed.

Lemma count_level_above mean_y stdev_15 row :
  count_occ Z.eq_dec (map (signal_level mean_y stdev_15) row) 1%Z
  = len (filter (exceeds (mean_y + stdev_15)) row).
Proof.
  induction row as [| x t IH]; [reflexivity |].
  cbn [map filter].
  destruct (exceeds (mean_y + stdev_15) x) eqn:Ex.
  - rewrite count_occ_cons_eq by now apply signal_level_one.
    simpl. now rewrite IH.
  - rewrite count_occ_cons_neq; [assumption |].
    intros E. apply signal_level_one in E. congruence.
Qed.

Lemma count_level_below mean_y stdev_15 row :
  count_occ Z.eq_dec (map (signal_level mean_y stdev_15) row) (-1)%Z
  <= len (filter (falls_below (mean_y - stdev_15)) row).
Proof.
  induction row as [| x t IH]; [reflexivity |].
  cbn [map filter].
  destruct (Z.eq_dec (signal_level mean_y stdev_15 x) (-1)) as [E | E].
  - rewrite count_occ_cons_eq by assumption.
    rewrite (signal_level_minus_one _ _ _ E). simpl. lia.
  - rewrite count_occ_cons_neq by assumption.
    destruct (falls_below (mean_y - stdev_15) x); simpl; lia.
Qed.

Lemma scan_flags_count reduced_row mean_y stdev_y peak_scan valley_scan :
  mean reduced_row = Ok mean_y ->
  stdev reduced_row = Ok stdev_y ->
  _determine_scans reduced_row = Ok (peak_scan, valley_scan) ->
  (peak_scan = true ->
   6 <= len (filter (exceeds (mean_y + stdev_y * 1.5)) reduced_row))
  /\ (valley_scan = true ->
      6 <= len (filter (falls_below (mean_y - stdev_y * 1.5)) reduced_row)).
Proof.
  intros Hm Hs Hd.
  destruct (determine_scans_ok reduced_row (determine_scans_len _ Hd))
    as (m & s & Hm' & Hs' & _ & Hf).
  assert (m = mean_y) as -> by congruence.
  assert (s = stdev_y) as -> by congruence.
  rewrite (Hf _ eq_refl) in Hd. injection Hd as Hp Hv.
  pose proof (groupby_counts_rle
                (map (signal_level mean_y (stdev_y * 1.5)) reduced_row))
    as (Hx & _ & _).
  split; intros ->.
  - apply existsb_long_run in Hp as (n & Hin & Hn).
    apply count_level_in_runs in Hin.
    rewrite Hx, count_level_above in Hin. lia.
  - apply existsb_long_run in Hv as (n & Hin & Hn).
    apply count_level_in_runs in Hin. rewrite Hx in Hin.
    pose proof (count_level_below mean_y (stdev_y * 1.5) reduced_row). lia.
Qed.

(** ** The detector *)

Lemma max_ok lst : lst <> [] -> exists m, max lst = Ok m.
Proof. destruct lst; [congruence | intros _; eexists; reflexivity]. Qed.

Lemma median_ok data : data <> [] -> exists m, median data = Ok m.
Proof.
  destruct data as [| x t]; [congruence | intros _].
  unfold median. destruct (Nat.odd (len (x :: t))); eexists; reflexivity.
Qed.

Section DetectionFacts.

Variable search_properties : Type.
Variable find_peaks :
  list R -> R -> Z -> Z -> Z -> list Z * search_properties.

Abbreviation detect := (find_peaks_and_or_valleys find_peaks).
Abbreviation searching := (search find_peaks).
Abbreviation run_searches := (searches_of find_peaks).

(** Once the row is reduced and the decider has returned, nothing raises
    any more: the statistics are there and the detector is its searches. *)
Lemma detect_searches raw_row n w reduced_row peak_scan valley_scan :
  _reduce_data_for_peak_detection raw_row n w = Ok reduced_row ->
  _determine_scans reduced_row = Ok (peak_scan, valley_scan) ->
  exists ymax mean_y stdev_y,
    max reduced_row = Ok ymax
    /\ mean reduced_row = Ok mean_y
    /\ stdev reduced_row = Ok stdev_y
    /\ forall world0,
        detect raw_row n w world0
        = run_searches reduced_row peak_scan valley_scan
                      ymax mean_y stdev_y world0.
Proof.
  intros Hr Hd.
  pose proof (determine_scans_len _ Hd) as Hlen.
  assert (Hne : reduced_row <> [])
    by (destruct reduced_row; simpl in Hlen; [lia | discriminate]).
  destruct (max_ok Hne) as (ymax & Hmax).
  destruct (median_ok Hne) as (med & Hmed).
  destruct (stdev_two_points _ Hlen) as (v & Hs).
  exists ymax, (total reduced_row / INR (len reduced_row))%R, (sqrt v).
  split; [assumption |].
  split; [apply mean_nonempty; lia |].
  split; [assumption |].
  intros world0. unfold find_peaks_and_or_valleys, bind, lift.
  rewrite Hr, Hd, Hmax, mean_nonempty, Hmed, Hs by lia.
  reflexivity.
Qed.

(** C7.  When the decider returns false for both scans, the detector returns
    the reduced row with no peak, no valley and the two empty property
    lists, and leaves the world as it found it: no search has run. *)
Theorem no_scan_no_search raw_row n w reduced_row world0 :
  _reduce_data_for_peak_detection raw_row n w = Ok reduced_row ->
  _determine_scans reduced_row = Ok (false, false) ->
  detect raw_row n w world0
  = (Ok (reduced_row, [], [],
         EmptyList search_properties, EmptyList search_properties),
     world0).
Proof.
  intros Hr Hd.
  destruct (detect_searches _ _ _ Hr Hd) as (ymax & m & s & _ & _ & _ & E).
  now rewrite E.
Qed.

Lemma searching_call x height distance prominence width world0 :
  searching x height distance prominence width world0
  = (Ok (fst (find_peaks x height distance prominence width),
         Properties (snd (find_peaks x height distance prominence width))),
     World (searches world0
            ++ [SearchCall x height distance prominence width])
           (written world0)).
Proof.
  unfold search.
  now destruct (find_peaks x height distance prominence width).
Qed.

(** C5.  When the valley scan runs, the valley indices are what the search
    finds on the inverted signal [ymax - y] with the height threshold
    [(ymax - mean) + 1.5*stdev], distance 20, prominence 4 and width 3: the
    search, and the three constraints, of the peak scan. *)
Theorem valleys_are_peaks_of_inversion
  raw_row n w reduced_row peak_scan world0 :
  _reduce_data_for_peak_detection raw_row n w = Ok reduced_row ->
  _determine_scans reduced_row = Ok (peak_scan, true) ->
  exists ymax mean_y stdev_y peaks peak_properties world1,
    max reduced_row = Ok ymax
    /\ mean reduced_row = Ok mean_y
    /\ stdev reduced_row = Ok stdev_y
    /\ let y_inverse := map (fun v => (ymax - v)%R) reduced_row in
       let height := ((ymax - mean_y) + stdev_y * 1.5)%R in
       let found := find_peaks y_inverse height 20%Z 4%Z 3%Z in
       detect raw_row n w world0
       = (Ok (reduced_row, peaks, fst found, peak_properties,
              Properties (snd found)), world1)
       /\ searches world1
          = searches world0
            ++ (if peak_scan
                then [SearchCall reduced_row (mean_y + stdev_y * 1.5)%R
                                 20%Z 4%Z 3%Z]
                else [])
            ++ [SearchCall y_inverse height 20%Z 4%Z 3%Z]
       /\ (peak_scan = true ->
           peaks = fst (find_peaks reduced_row (mean_y + stdev_y * 1.5)%R
                                   20%Z 4%Z 3%Z)).
Proof.
  intros Hr Hd.
  destruct (detect_searches _ _ _ Hr Hd)
    as (ymax & m & s & Hmax & Hm & Hs & E).
  exists ymax, m, s.
  destruct peak_scan.
  - do 3 eexists. repeat (split; [eassumption |]).
    cbv zeta. rewrite E. unfold searches_of, bind.
    rewrite !searching_call. simpl.
    split; [reflexivity |]. split; [| reflexivity].
    now rewrite <- app_assoc.
  - do 3 eexists. repeat (split; [eassumption |]).
    cbv zeta. rewrite E. unfold searches_of, bind, ret.
    rewrite searching_call. simpl.
    split; [reflexivity |]. split; [reflexivity | discriminate].
Qed.


End DetectionFacts.

(** ** The detector on sample rows *)

Lemma sqrt_between v a b :
  (0 <= a -> 0 < b -> a * a < v -> v < b * b -> a < sqrt v < b)%R.
Proof.
  intros Ha Hb Hl Hu. split.
  - rewrite <- (sqrt_square a) by assumption. apply sqrt_lt_1; nra.
  - rewrite <- (sqrt_square b) by lra. apply sqrt_lt_1; nra.
Qed.

(** With unit buckets and unit windows the reducer gives the row back, but
    for its last point. *)
Ltac reduce_by_unit :=
  rewrite reduce_ok by lia; f_equal;
  unfold reference_reduce, reference_smoothed, reference_bucketed,
    reference_chunks, div_ceil;
  simpl; repeat (apply f_equal2; [lra |]); reflexivity.

Lemma flat_row_reduced :
  _reduce_data_for_peak_detection [0; 0; 0]%R 1 1 = Ok [0; 0]%R.
Proof. reduce_by_unit. Qed.


Lemma valley_row_reduced :
  _reduce_data_for_peak_detection valley_raw 1 1 = Ok valley_row.
Proof. unfold valley_raw, valley_row. reduce_by_unit. Qed.

Lemma flat_row_scans : _determine_scans [0; 0]%R = Ok (false, false).
Proof.
  apply determine_scans_constant with (c := 0%R);
    [simpl; lia | repeat constructor].
Qed.

(** The mean of [peak_row] is 6 and its standard deviation lies between 10
    and 10.5: the band is within (-9.75, 21.75). *)
Lemma peak_row_scans : _determine_scans peak_row = Ok (true, false).
Proof.
  destruct (@determine_scans_ok peak_row) as (m & s & Hm & Hs & _ & Hd);
    [simpl; lia |].
  rewrite (Hd _ eq_refl).
  assert (Em : m = 6%R).
  { unfold peak_row in Hm. rewrite mean_nonempty in Hm by (simpl; lia).
    injection Hm as <-. simpl. lra. }
  assert (Es : (10 < s < 10.5)%R).
  { unfold peak_row, stdev in Hs. simpl in Hs. injection Hs as <-.
    apply sqrt_between; try lra; unfold sum; simpl; lra. }
  subst m.
  assert (L0 : signal_level 6 (s * 1.5) 0 = 0%Z).
  { unfold signal_level.
    destruct (Rgt_dec 0 (6 + s * 1.5)); [lra |].
    destruct (Rlt_dec 0 (6 - s * 1.5)); [lra | reflexivity]. }
  assert (L1 : signal_level 6 (s * 1.5) 22 = 1%Z).
  { unfold signal_level.
    destruct (Rgt_dec 22 (6 + s * 1.5)); [reflexivity | lra]. }
  unfold peak_row. simpl map. rewrite L0, L1. reflexivity.
Qed.

(** The mean of [valley_row] is 16, with the same standard deviation: the
    band is within (0.25, 31.75). *)
Lemma valley_row_scans : _determine_scans valley_row = Ok (false, true).
Proof.
  destruct (@determine_scans_ok valley_row) as (m & s & Hm & Hs & _ & Hd);
    [simpl; lia |].
  rewrite (Hd _ eq_refl).
  assert (Em : m = 16%R).
  { unfold valley_row in Hm. rewrite mean_nonempty in Hm by (simpl; lia).
    injection Hm as <-. simpl. lra. }
  assert (Es : (10 < s < 10.5)%R).
  { unfold valley_row, stdev in Hs. simpl in Hs. injection Hs as <-.
    apply sqrt_between; try lra; unfold sum; simpl; lra. }
  subst m.
  assert (L0 : signal_level 16 (s * 1.5) 22 = 0%Z).
  { unfold signal_level.
    destruct (Rgt_dec 22 (16 + s * 1.5)); [lra |].
    destruct (Rlt_dec 22 (16 - s * 1.5)); [lra | reflexivity]. }
  assert (L1 : signal_level 16 (s * 1.5) 0 = (-1)%Z).
  { unfold signal_level.
    destruct (Rgt_dec 0 (16 + s * 1.5)); [lra |].
    destruct (Rlt_dec 0 (16 - s * 1.5)); [reflexivity | lra]. }
  unfold valley_row. simpl map. rewrite L0, L1. reflexivity.
Qed.

Lemma no_scan_no_search_witness :
  _reduce_data_for_peak_detection [0; 0; 0]%R 1 1 = Ok [0; 0]%R
  /\ _determine_scans [0; 0]%R = Ok (false, false)
  /\ find_peaks_and_or_valleys sample_find_peaks [0; 0; 0]%R 1 1 (World [] [])
     = (Ok ([0; 0]%R, [], [], EmptyList unit, EmptyList unit), World [] []).
Proof.
  split; [exact flat_row_reduced |].
  split; [exact flat_row_scans |].
  exact (@no_scan_no_search _ sample_find_peaks _ _ _ _ (World [] [])
           flat_row_reduced flat_row_scans).
Defined.

Lemma valleys_are_peaks_of_inversion_witness :
  _reduce_data_for_peak_detection valley_raw 1 1 = Ok valley_row
  /\ _determine_scans valley_row = Ok (false, true)
  /\ exists found world1,
      find_peaks_and_or_valleys sample_find_peaks valley_raw 1 1 (World [] [])
      = (Ok found, world1)
      /\ len (searches world1) = 1.
Proof.
  split; [exact valley_row_reduced |].
  split; [exact valley_row_scans |].
  destruct (@valleys_are_peaks_of_inversion _ sample_find_peaks _ _ _ _ _
              (World [] []) valley_row_reduced valley_row_scans)
    as (ymax & m & s & peaks & pp & world1 & _ & _ & _ & Hrun & Hcalls & _).
  eexists. exists world1. split; [exact Hrun |].
  rewrite Hcalls. reflexivity.
Defined.



(** ** The classifier and the output line *)

Open Scope string_scope.

Lemma append_assoc (s1 s2 s3 : string) : (s1 ++ s2) ++ s3 = s1 ++ s2 ++ s3.
Proof. induction s1 as [| c s1 IH]; simpl; [reflexivity | now rewrite IH]. Qed.

Lemma category_table peak_count valley_count :
  category peak_count valley_count
  = regulation_category peak_count valley_count.
Proof.
  destruct peak_count as [| [| [| [| [| peak_count]]]]];
    destruct valley_count as [| [| valley_count]]; reflexivity.
Qed.

Lemma new_loc_floor ss rs i :
  new_loc ss rs i = ((i + Z.of_nat ss / 2) * Z.of_nat rs - 1500)%Z.
Proof. unfold new_loc. rewrite Z.quot_div_nonneg by lia. reflexivity. Qed.

Lemma position_field_new_loc indices k :
  position_field indices k
  = match nth_error (map (new_loc smooth_size reduce_size) indices) k with
    | Some z => str z
    | None => ""
    end.
Proof.
  unfold position_field. rewrite nth_error_map.
  destruct (nth_error indices k); simpl; [| reflexivity].
  now rewrite new_loc_floor.
Qed.

(** The loop over the four peak slots. *)
Lemma peak_slots line (peaks_bp : list Z) :
  fold_left
    (fun line i =>
       if (i <? len peaks_bp)%nat
       then line ++ "," ++ str (nth i peaks_bp 0%Z)
       else line ++ ",")
    (range 0 4 1) line
  = line
    ++ "," ++ match nth_error peaks_bp 0 with Some z => str z | None => "" end
    ++ "," ++ match nth_error peaks_bp 1 with Some z => str z | None => "" end
    ++ "," ++ match nth_error peaks_bp 2 with Some z => str z | None => "" end
    ++ "," ++ match nth_error peaks_bp 3 with Some z => str z | None => "" end.
Proof.
  change (range 0 4 1) with [0; 1; 2; 3]%nat.
  destruct peaks_bp as [| p0 [| p1 [| p2 [| p3 t]]]];
    cbn [fold_left len List.length Nat.ltb Nat.leb nth nth_error];
    rewrite !append_assoc; reflexivity.
Qed.

(** The line is its ten fields, comma-separated, and a line break. *)
Lemma line_fields peaks valleys id sra :
  tf_regulation_line peaks valleys id sra
  = String.concat "," (regulation_fields peaks valleys id sra) ++ newline.
Proof.
  unfold tf_regulation_line. rewrite peak_slots, category_table.
  unfold regulation_fields. rewrite !position_field_new_loc.
  rewrite length_map.
  destruct valleys as [| v0 t];
    cbn [String.concat len List.length Nat.ltb Nat.leb nth nth_error map];
    rewrite !append_assoc; reflexivity.
Qed.

(** C1.  The category written on the line of a row is the fifth field, and
    it is the one the table gives for the two counts: inactive for (0, 0),
    active for (1, 0), repressed for (0, 1), offset for (2, 0) and (4, 0),
    uncategorized for anything else. *)
Theorem category_by_counts peaks valleys id sra :
  tf_regulation_line peaks valleys id sra
  = String.concat "," (regulation_fields peaks valleys id sra) ++ newline
  /\ nth 4 (regulation_fields peaks valleys id sra) ""
     = category (len peaks) (len valleys)
  /\ category (len peaks) (len valleys)
     = match len peaks, len valleys with
       | 0, 0 => "inactive"
       | 1, 0 => "active"
       | 0, 1 => "repressed"
       | 2, 0 => "offset"
       | 4, 0 => "offset"
       | _, _ => "uncategorized"
       end%nat.
Proof.
  split; [apply line_fields |].
  split; [simpl; now rewrite category_table |].
  apply category_table.
Qed.

(** C3.  A reduced-row index [i] is written as
    [(i + floor(smooth_size/2)) * reduce_size - 1500]: this is what
    [new_loc] computes, it is what each position field of the line holds,
    and for sizes 10 and 10 index 5 gives -1400. *)
Theorem position_mapping :
  (forall ss rs i,
      new_loc ss rs i = ((i + Z.of_nat ss / 2) * Z.of_nat rs - 1500)%Z)
  /\ new_loc 10 10 5 = (-1400)%Z
  /\ (forall peaks valleys id sra,
        tf_regulation_line peaks valleys id sra
        = String.concat "," (regulation_fields peaks valleys id sra)
          ++ newline)
  /\ (forall indices k,
        position_field indices k
        = match nth_error indices k with
          | Some i =>
              str ((i + Z.of_nat smooth_size / 2) * Z.of_nat reduce_size
                   - 1500)
          | None => ""
          end)
  /\ tf_regulation_line [5%Z] [] "ID" "SRR"
     = "1,0,ID,SRR,active,-1400,,,," ++ newline.
Proof.
  split; [apply new_loc_floor |].
  split; [reflexivity |].
  split; [apply line_fields |].
  split; reflexivity.
Qed.

Close Scope string_scope.

(** ** The run over the rows *)

Lemma Forall_window {A} (P : A -> Prop) l n j :
  Forall P l -> Forall P (firstn n (skipn j l)).
Proof.
  intros H. rewrite <- (firstn_skipn j l) in H.
  apply Forall_app in H as [_ H].
  rewrite <- (firstn_skipn n (skipn j l)) in H.
  now apply Forall_app in H as [H _].
Qed.

Lemma total_zero l : Forall (eq 0%R) l -> total l = 0%R.
Proof. intros H. rewrite (total_constant H). lra. Qed.

Lemma reference_reduce_zero raw_row n w :
  Forall (eq 0%R) raw_row -> Forall (eq 0%R) (reference_reduce raw_row n w).
Proof.
  intros H. unfold reference_reduce, reference_smoothed.
  apply Forall_map, Forall_forall. intros j _.
  rewrite total_zero; [unfold Rdiv; ring |].
  apply Forall_window. unfold reference_bucketed, reference_chunks.
  apply Forall_map, Forall_map, Forall_forall. intros k _.
  symmetry. apply total_zero. now apply Forall_window with (j := k * n).
Qed.

Lemma zero_raw_reduced :
  _reduce_data_for_peak_detection zero_raw reduce_size smooth_size
  = Ok (reference_reduce zero_raw reduce_size smooth_size).
Proof. apply reduce_ok; unfold reduce_size, smooth_size; lia. Qed.

Lemma zero_raw_scans :
  _determine_scans (reference_reduce zero_raw reduce_size smooth_size)
  = Ok (false, false).
Proof.
  apply determine_scans_constant with (c := 0%R).
  - rewrite len_reference_reduce. unfold zero_raw.
    rewrite repeat_length. reflexivity.
  - apply reference_reduce_zero. unfold zero_raw.
    apply Forall_forall. intros x Hx. now apply repeat_spec in Hx.
Qed.

Lemma too_short_false raw_row :
  too_short raw_row = false ->
  2 <= len (reference_reduce raw_row reduce_size smooth_size).
Proof.
  unfold too_short. rewrite reduce_ok by (unfold reduce_size, smooth_size; lia).
  intros H. apply Nat.ltb_ge in H. exact H.
Qed.

Lemma too_short_true raw_row :
  too_short raw_row = true ->
  _determine_scans (reference_reduce raw_row reduce_size smooth_size)
  = Raise StatisticsError.
Proof.
  unfold too_short. rewrite reduce_ok by (unfold reduce_size, smooth_size; lia).
  intros H. apply Nat.ltb_lt in H.
  destruct (reference_reduce raw_row reduce_size smooth_size)
    as [| x [| y t]]; [reflexivity | reflexivity | simpl in H; lia].
Qed.

Lemma for_each_app {A} (l1 l2 : list A) body world0 :
  for_each (l1 ++ l2) body world0
  = match for_each l1 body world0 with
    | (Ok _, world1) => for_each l2 body world1
    | (Raise e, world1) => (Raise e, world1)
    end.
Proof.
  revert world0. induction l1 as [| x t IH]; intros world0; simpl.
  - reflexivity.
  - unfold bind. destruct (body x world0) as [[[] | e] world1];
      [apply IH | reflexivity].
Qed.

Section RunFacts.

Variable search_properties : Type.
Variable find_peaks :
  list R -> R -> Z -> Z -> Z -> list Z * search_properties.

Abbreviation detect := (find_peaks_and_or_valleys find_peaks).
Abbreviation run_searches := (searches_of find_peaks).
Abbreviation process := (process_row find_peaks).

Lemma searches_of_ok reduced_row peak_scan valley_scan ymax m s world0 :
  exists found world1,
    run_searches reduced_row peak_scan valley_scan ymax m s world0
    = (Ok found, world1)
    /\ fst (fst (fst (fst found))) = reduced_row
    /\ written world1 = written world0.
Proof.
  unfold searches_of, bind, ret, search.
  destruct peak_scan, valley_scan;
    repeat match goal with
           | |- context [find_peaks ?x ?h ?d ?p ?w] =>
               destruct (find_peaks x h d p w)
           end;
    do 2 eexists; (split; [reflexivity |]); split; reflexivity.
Qed.

(** The detector never writes. *)
Lemma detect_written raw_row n w world0 r world1 :
  detect raw_row n w world0 = (r, world1) ->
  written world1 = written world0.
Proof.
  unfold find_peaks_and_or_valleys, bind, lift.
  destruct (_reduce_data_for_peak_detection raw_row n w) as [row |];
    [| intros E; now injection E as _ <-].
  destruct (_determine_scans row) as [[p v] |];
    [| intros E; now injection E as _ <-].
  destruct (max row) as [ymax |]; [| intros E; now injection E as _ <-].
  destruct (mean row) as [m |]; [| intros E; now injection E as _ <-].
  destruct (median row) as [md |]; [| intros E; now injection E as _ <-].
  destruct (stdev row) as [s |]; [| intros E; now injection E as _ <-].
  destruct (searches_of_ok row p v ymax m s world0)
    as (found & world' & Hrun & _ & Hw).
  unfold searches_of, bind in Hrun. rewrite Hrun.
  intros E. now injection E as _ <-.
Qed.

(** The body of the loop, once the detector has returned. *)
Lemma process_detected sra ids raw_data i raw_row id world0
  reduced_row peaks valleys peak_properties valley_properties world1 :
  nth_error raw_data i = Some raw_row ->
  detect raw_row reduce_size smooth_size world0
  = (Ok (reduced_row, peaks, valleys, peak_properties, valley_properties),
     world1) ->
  nth_error ids i = Some id ->
  process sra ids raw_data i world0
  = (Ok tt,
     World (searches world1)
           (written world0
            ++ [tf_regulation_line peaks valleys (clean_id id) sra])).
Proof.
  intros Hrow Hdet Hid.
  unfold process_row, bind, lift, index, write.
  rewrite Hrow, Hdet, Hid. now rewrite (detect_written _ _ _ _ Hdet).
Qed.

(** The positions of the first indices of an ascending search result are
    ascending. *)
Lemma positions_ascending n indices :
  Sorted Z.lt indices ->
  Sorted Z.lt (map (new_loc smooth_size reduce_size) (firstn n indices)).
Proof.
  intros H. revert n.
  induction H as [| i rest Hs IH Hd]; intros [| n]; simpl;
    try constructor; auto.
  destruct Hd as [| j rest' Hij]; destruct n; simpl; constructor.
  unfold new_loc, smooth_size, reduce_size. simpl. lia.
Qed.

(** C9.  For a row on which the detector returns, the body of the loop
    writes one line and nothing else: the ten fields [regulation_fields]
    (peak count, valley count, cleaned identifier, sample tag, category, the
    first four peak positions, the first valley position; a missing
    position is an empty field), comma-separated, and a line break.  The
    peak positions come in the order of the indices, ascending when the
    indices are. *)
Theorem one_line_per_row sra ids raw_data i raw_row id world0
  reduced_row peaks valleys peak_properties valley_properties world1 :
  nth_error raw_data i = Some raw_row ->
  detect raw_row reduce_size smooth_size world0
  = (Ok (reduced_row, peaks, valleys, peak_properties, valley_properties),
     world1) ->
  nth_error ids i = Some id ->
  process sra ids raw_data i world0
  = (Ok tt,
     World (searches world1)
           (written world0
            ++ [(String.concat ","
                   [ str (Z.of_nat (len peaks)); str (Z.of_nat (len valleys));
                     clean_id id; sra;
                     category (len peaks) (len valleys);
                     position_field (firstn 4 peaks) 0;
                     position_field (firstn 4 peaks) 1;
                     position_field (firstn 4 peaks) 2;
                     position_field (firstn 4 peaks) 3;
                     position_field (firstn 1 valleys) 0 ]
                 ++ newline)%string]))
  /\ (Sorted Z.lt peaks ->
      Sorted Z.lt (map (new_loc smooth_size reduce_size) (firstn 4 peaks))).
Proof.
  intros Hrow Hdet Hid. split; [| apply positions_ascending].
  erewrite process_detected by eassumption. rewrite line_fields.
  unfold regulation_fields, position_field. rewrite category_table.
  destruct peaks as [| p0 [| p1 [| p2 [| p3 t]]]];
    destruct valleys as [| v0 t']; reflexivity.
Qed.

(** A row that is not too short gets its line. *)
Lemma process_row_good sra ids raw_data i raw_row id world0 :
  nth_error raw_data i = Some raw_row ->
  too_short raw_row = false ->
  nth_error ids i = Some id ->
  exists world1,
    process sra ids raw_data i world0 = (Ok tt, world1)
    /\ len (written world1) = S (len (written world0)).
Proof.
  intros Hrow Hlong Hid.
  pose proof (too_short_false _ Hlong) as Hlen.
  assert (Hr : _reduce_data_for_peak_detection raw_row reduce_size smooth_size
               = Ok (reference_reduce raw_row reduce_size smooth_size))
    by (apply reduce_ok; unfold reduce_size, smooth_size; lia).
  assert (Hd : exists peak_scan valley_scan,
             _determine_scans
               (reference_reduce raw_row reduce_size smooth_size)
             = Ok (peak_scan, valley_scan)).
  { destruct (determine_scans_ok _ Hlen) as (m & s & _ & _ & _ & Hd).
    do 2 eexists. exact (Hd _ eq_refl). }
  destruct Hd as (peak_scan & valley_scan & Hd).
  destruct (detect_searches find_peaks _ _ _ Hr Hd)
    as (ymax & m & s & _ & _ & _ & E).
  destruct (searches_of_ok
              (reference_reduce raw_row reduce_size smooth_size)
              peak_scan valley_scan ymax m s world0)
    as ([[[[row peaks] valleys] pp] vp] & world' & Hrun & Hfst & _).
  rewrite <- E in Hrun.
  eexists. split.
  - eapply process_detected; eassumption.
  - simpl. rewrite length_app. simpl. lia.
Qed.

(** A row that is too short raises, and nothing is written for it. *)
Lemma process_row_short sra ids raw_data i raw_row world0 :
  nth_error raw_data i = Some raw_row ->
  too_short raw_row = true ->
  process sra ids raw_data i world0 = (Raise StatisticsError, world0).
Proof.
  intros Hrow Hshort.
  unfold process_row, find_peaks_and_or_valleys, bind, lift, index.
  rewrite Hrow.
  rewrite reduce_ok by (unfold reduce_size, smooth_size; lia).
  now rewrite (too_short_true _ Hshort).
Qed.

Lemma good_rows_loop sra ids raw_data k : forall a world0,
  (forall i, a <= i < a + k ->
     exists raw_row id,
       nth_error raw_data i = Some raw_row
       /\ too_short raw_row = false
       /\ nth_error ids i = Some id) ->
  exists world1,
    for_each (seq a k) (process sra ids raw_data) world0 = (Ok tt, world1)
    /\ len (written world1) = len (written world0) + k.
Proof.
  induction k as [| k IH]; intros a world0 Hgood; simpl.
  - exists world0. split; [reflexivity | lia].
  - destruct (Hgood a ltac:(lia)) as (raw_row & id & Hrow & Hlong & Hid).
    destruct (@process_row_good sra ids raw_data a raw_row id world0
                Hrow Hlong Hid)
      as (world' & Hp & Hw).
    destruct (IH (S a) world') as (world1 & Hloop & Hw1).
    { intros i Hi. apply Hgood. lia. }
    exists world1. unfold bind. rewrite Hp. split; [exact Hloop | lia].
Qed.

(** C8, amended.  When the rows before a too-short row are not too short
    and have their identifiers, the run stops at the too-short row with the
    statistics error it raises: the lines of the rows before it have been
    written, none for it, none for the rows after it. *)
Theorem short_row_aborts_run sra ids before short after world0 :
  Forall (fun raw_row => too_short raw_row = false) before ->
  too_short short = true ->
  len before <= len ids ->
  exists world1,
    categorize_msd_file_into_tf_regulation find_peaks sra ids
      (before ++ short :: after) world0
    = (Raise StatisticsError, world1)
    /\ len (written world1) = len before.
Proof.
  intros Hgood Hshort Hids.
  unfold categorize_msd_file_into_tf_regulation, bind, open_w.
  rewrite range_unit, length_app.
  change (len (short :: after)) with (S (len after)).
  rewrite seq_app, for_each_app. simpl (0 + len before).
  destruct (@good_rows_loop sra ids (before ++ short :: after) (len before)
              0 (World (searches world0) []))
    as (world' & Hloop & Hw).
  { intros i Hi.
    destruct (nth_error before i) as [raw_row |] eqn:Hrow;
      [| apply nth_error_None in Hrow; lia].
    destruct (nth_error ids i) as [id |] eqn:Hid;
      [| apply nth_error_None in Hid; lia].
    exists raw_row, id. split; [| split; [| reflexivity]].
    - rewrite nth_error_app1 by lia. exact Hrow.
    - rewrite Forall_forall in Hgood. apply Hgood.
      eapply nth_error_In. exact Hrow. }
  rewrite Hloop. exists world'. split; [| simpl in Hw; lia].
  simpl. unfold bind.
  rewrite (@process_row_short sra ids (before ++ short :: after)
             (len before) short); [reflexivity | | assumption].
  rewrite nth_error_app2 by lia. now rewrite Nat.sub_diag.
Qed.

End RunFacts.

(** C8, as the specification states it, fails: with an empty first row and a
    second row of 120 zeros the run ends on the statistics error of the first
    row, and the line of the second row is never written. *)
Lemma short_row_is_not_skipped :
  categorize_msd_file_into_tf_regulation sample_find_peaks
    "SRR"%string ["a"; "b"]%string [[]; zero_raw] (World [] [])
  = (Raise StatisticsError, World [] [])
  /\ ~ skips_short_rows sample_find_peaks
         "SRR"%string ["a"; "b"]%string [[]; zero_raw].
Proof.
  assert (Hrun : categorize_msd_file_into_tf_regulation sample_find_peaks
                   "SRR"%string ["a"; "b"]%string [[]; zero_raw] (World [] [])
                 = (Raise StatisticsError, World [] []))
    by reflexivity.
  split; [exact Hrun |].
  intros Hskip. destruct Hskip as (world1 & Hok & _).
  - left. reflexivity.
  - rewrite Hrun in Hok. discriminate.
Qed.

Lemma short_row_aborts_run_witness :
  too_short zero_raw = false
  /\ too_short [] = true
  /\ exists world1,
      categorize_msd_file_into_tf_regulation sample_find_peaks
        "SRR"%string ["a"; "b"; "c"]%string [zero_raw; []; zero_raw]
        (World [] [])
      = (Raise StatisticsError, world1)
      /\ len (written world1) = 1.
Proof.
  assert (Hlong : too_short zero_raw = false).
  { unfold too_short. rewrite zero_raw_reduced, len_reference_reduce.
    reflexivity. }
  assert (Hshort : too_short [] = true) by reflexivity.
  split; [exact Hlong |]. split; [exact Hshort |].
  apply (@short_row_aborts_run _ sample_find_peaks "SRR"%string
           ["a"; "b"; "c"]%string [zero_raw] [] [zero_raw] (World [] [])).
  - constructor; [exact Hlong | constructor].
  - exact Hshort.
  - simpl. lia.
Defined.

Lemma one_line_per_row_witness :
  exists line,
    process_row sample_find_peaks "SRR"%string ["HO_a_HUMAN.H10MO"]%string
      [zero_raw] 0 (World [] [])
    = (Ok tt, World [] [line])
    /\ line = ("0,0,a,SRR,inactive,,,,," ++ newline)%string.
Proof.
  assert (Hdet : find_peaks_and_or_valleys sample_find_peaks zero_raw
                   reduce_size smooth_size (World [] [])
                 = (Ok (reference_reduce zero_raw reduce_size smooth_size,
                        [], [], EmptyList unit, EmptyList unit),
                    World [] [])).
  { destruct (detect_searches sample_find_peaks _ _ _
                zero_raw_reduced zero_raw_scans)
      as (ymax & m & s & _ & _ & _ & E).
    now rewrite E. }
  eexists. split.
  - apply (@one_line_per_row _ sample_find_peaks "SRR"%string
             ["HO_a_HUMAN.H10MO"]%string [zero_raw] 0 zero_raw
             "HO_a_HUMAN.H10MO"%string (World [] []) _ [] [] _ _ _
             eq_refl Hdet eq_refl).
  - reflexivity.
Defined.

(** * Further facts

    Properties of the same functions that the source shows and that no
    statement above covers. *)

(** ** The reducer: errors, range of influence of the samples *)

Lemma div_ceil_pos a b : 0 < b -> 0 < a -> 0 < div_ceil a b.
Proof. intros Hb Ha. rewrite (div_ceil_step (a := a)) by assumption. lia. Qed.

Lemma div_ceil_gt k a b : 0 < b -> k * b < a -> k < div_ceil a b.
Proof.
  intros Hb Hk. unfold div_ceil.
  apply Nat.lt_le_trans with (m := (S k * b) / b).
  - rewrite Nat.div_mul by lia. lia.
  - apply Nat.Div0.div_le_mono. simpl. lia.
Qed.

Lemma reduce_cases raw_row n w :
  _reduce_data_for_peak_detection raw_row n w
  = if n =? 0 then Raise ValueError
    else if (w =? 0) && negb (len raw_row =? 0) then Raise StatisticsError
    else Ok (reference_reduce raw_row n w).
Proof.
  destruct (n =? 0) eqn:En.
  - apply Nat.eqb_eq in En. subst n. reflexivity.
  - apply Nat.eqb_neq in En.
    destruct (w =? 0) eqn:Ew.
    + apply Nat.eqb_eq in Ew. subst w.
      unfold _reduce_data_for_peak_detection.
      rewrite bucketed_row_of_ok by lia. simpl rbind.
      unfold bucket_smooth. rewrite range_unit, Nat.sub_0_r.
      rewrite len_reference_bucketed.
      destruct (len raw_row =? 0) eqn:El.
      * apply Nat.eqb_eq in El. rewrite El, div_ceil_0 by lia.
        simpl. unfold reference_reduce, reference_smoothed.
        rewrite len_reference_bucketed, El, div_ceil_0 by lia. reflexivity.
      * apply Nat.eqb_neq in El.
        pose proof (@div_ceil_pos (len raw_row) n ltac:(lia) ltac:(lia)).
        destruct (div_ceil (len raw_row) n) as [| c]; [lia |].
        reflexivity.
    + apply Nat.eqb_neq in Ew. simpl. apply reduce_ok; lia.
Qed.

(** The integer-sized reducer on sizes that are not negative. *)

Lemma range_int_from_nat fuel : forall i stop step,
  0 < step ->
  range_int_from fuel (Z.of_nat i) (Z.of_nat stop) (Z.of_nat step)
  = map Z.of_nat (range_from fuel i stop step).
Proof.
  induction fuel as [| fuel IH]; intros i stop step Hs; [reflexivity |].
  cbn [range_int_from range_from].
  replace (0 <? Z.of_nat step)%Z with true by (symmetry; apply Z.ltb_lt; lia).
  replace (Z.of_nat i <? Z.of_nat stop)%Z with (i <? stop)
    by (destruct (Nat.ltb_spec i stop), (Z.ltb_spec (Z.of_nat i)
                                           (Z.of_nat stop)); lia).
  destruct (i <? stop); [| reflexivity].
  cbn [map]. f_equal. rewrite <- Nat2Z.inj_add. now apply IH.
Qed.

Lemma range_int_nat stop step :
  0 < step ->
  range_int 0 (Z.of_nat stop) (Z.of_nat step)
  = Ok (map Z.of_nat (range 0 stop step)).
Proof.
  intros Hs. unfold range_int, range.
  replace (Z.of_nat step =? 0)%Z with false
    by (symmetry; apply Z.eqb_neq; lia).
  replace (Z.to_nat (Z.abs (Z.of_nat stop - 0))) with stop by lia.
  f_equal. now apply (range_int_from_nat stop 0 stop).
Qed.

Lemma range_int_none stop step :
  (step <> 0)%Z ->
  (if (0 <? step)%Z then (stop <= 0)%Z else (0 <= stop)%Z) ->
  range_int 0 stop step = Ok [].
Proof.
  intros Hs Hstop. unfold range_int.
  replace (step =? 0)%Z with false by (symmetry; now apply Z.eqb_neq).
  f_equal. destruct (Z.to_nat (Z.abs (stop - 0))); [reflexivity |].
  cbn [range_int_from].
  destruct (0 <? step)%Z.
  - replace (0 <? stop)%Z with false
      by (symmetry; apply Z.ltb_ge; lia). reflexivity.
  - replace (stop <? 0)%Z with false
      by (symmetry; apply Z.ltb_ge; lia). reflexivity.
Qed.

Lemma slice_int_nat {A} (lst : list A) i j :
  slice_int lst (Z.of_nat i) (Z.of_nat j) = slice lst i j.
Proof.
  unfold slice_int, slice_index, slice.
  replace (Z.of_nat i <? 0)%Z with false by (symmetry; apply Z.ltb_ge; lia).
  replace (Z.of_nat j <? 0)%Z with false by (symmetry; apply Z.ltb_ge; lia).
  rewrite !Nat2Z.id.
  destruct (le_lt_dec (len lst) i) as [Hi | Hi].
  - rewrite (skipn_all2 lst) by lia.
    rewrite (skipn_all2 lst) by lia. now rewrite !firstn_nil.
  - replace (Nat.min i (len lst)) with i by lia.
    destruct (le_lt_dec j (len lst)) as [Hj | Hj].
    + now replace (Nat.min j (len lst)) with j by lia.
    + rewrite !firstn_all2; [reflexivity | |]; rewrite length_skipn; lia.
Qed.

Lemma bucket_reduction_int_nat lst n :
  bucket_reduction_int lst (Z.of_nat n) = bucket_reduction lst n.
Proof.
  unfold bucket_reduction_int, bucket_reduction.
  destruct (n =? 0) eqn:En.
  - apply Nat.eqb_eq in En. subst n. reflexivity.
  - apply Nat.eqb_neq in En. rewrite range_int_nat by lia.
    cbn [rbind]. f_equal. rewrite map_map. apply map_ext. intros i.
    rewrite <- Nat2Z.inj_add. apply slice_int_nat.
Qed.

Lemma bucket_smooth_int_nat lst w :
  bucket_smooth_int lst (Z.of_nat w) = Ok (bucket_smooth lst w).
Proof.
  unfold bucket_smooth_int, bucket_smooth.
  destruct (le_lt_dec w (len lst)) as [Hw | Hw].
  - replace (Z.of_nat (len lst) - Z.of_nat w)%Z
      with (Z.of_nat (len lst - w)) by lia.
    change (range_int 0 ?a 1) with (range_int 0 a (Z.of_nat 1)).
    rewrite (range_int_nat (len lst - w) (step := 1)) by lia.
    cbn [rbind]. f_equal. rewrite map_map. apply map_ext. intros i.
    rewrite <- Nat2Z.inj_add. apply slice_int_nat.
  - rewrite range_int_none by (cbn; lia).
    replace (len lst - w) with 0 by lia. reflexivity.
Qed.

Lemma reduce_int_nat raw_row n w :
  _reduce_data_for_peak_detection_int raw_row (Z.of_nat n) (Z.of_nat w)
  = _reduce_data_for_peak_detection raw_row n w.
Proof.
  unfold _reduce_data_for_peak_detection_int, _reduce_data_for_peak_detection,
    bucketed_row_of.
  rewrite bucket_reduction_int_nat.
  destruct (bucket_reduction raw_row n) as [chunks | e]; [| reflexivity].
  cbn [rbind]. rewrite bucket_smooth_int_nat. cbn [rbind].
  now destruct (mapM mean (bucket_smooth (map sum chunks) w)).
Qed.

(** A window that is empty makes the smoothing raise. *)
Lemma mapM_mean_empty windows :
  In [] windows -> mapM mean windows = Raise StatisticsError.
Proof.
  induction windows as [| win rest IH]; intros Hin; [destruct Hin |].
  destruct win as [| x t]; [reflexivity |].
  destruct Hin as [E | Hin]; [discriminate |].
  cbn [mapM]. change (mean (x :: t)) with (Ok (sum (x :: t) / INR (len (x :: t)))%R).
  now rewrite (IH Hin).
Qed.

(** With a negative window size the last window is empty. *)
Lemma bucket_smooth_int_negative lst w :
  (w < 0)%Z ->
  exists windows,
    bucket_smooth_int lst w = Ok windows /\ In [] windows.
Proof.
  intros Hw. unfold bucket_smooth_int.
  replace (Z.of_nat (len lst) - w)%Z
    with (Z.of_nat (len lst + Z.to_nat (- w))) by lia.
  change (range_int 0 ?a 1) with (range_int 0 a (Z.of_nat 1)).
  rewrite (range_int_nat (len lst + Z.to_nat (- w)) (step := 1)) by lia.
  cbn [rbind]. eexists. split; [reflexivity |].
  rewrite range_unit, map_map. apply in_map_iff.
  exists (len lst + Z.to_nat (- w) - 1). split.
  - unfold slice_int, slice_index, slice.
    replace (Z.of_nat (len lst + Z.to_nat (- w) - 1) <? 0)%Z with false
      by (symmetry; apply Z.ltb_ge; lia).
    rewrite Nat2Z.id.
    replace (Nat.min (len lst + Z.to_nat (- w) - 1) (len lst))
      with (len lst) by lia.
    rewrite skipn_all. now rewrite firstn_nil.
  - apply in_seq. lia.
Qed.

Lemma reduce_int_cases raw_row n w :
  _reduce_data_for_peak_detection_int raw_row n w
  = if (n =? 0)%Z then Raise ValueError
    else if (w <? 0)%Z then Raise StatisticsError
    else if (n <? 0)%Z then Ok []
    else if (w =? 0)%Z && negb (len raw_row =? 0) then Raise StatisticsError
    else Ok (reference_reduce raw_row (Z.to_nat n) (Z.to_nat w)).
Proof.
  destruct (Z.eqb_spec n 0) as [-> | Hn]; [reflexivity |].
  destruct (Z.ltb_spec w 0) as [Hw | Hw].
  - unfold _reduce_data_for_peak_detection_int.
    assert (Hchunks : exists chunks,
               bucket_reduction_int raw_row n = Ok chunks).
    { unfold bucket_reduction_int, range_int.
      replace (n =? 0)%Z with false by (symmetry; now apply Z.eqb_neq).
      eexists. reflexivity. }
    destruct Hchunks as (chunks & ->). cbn [rbind].
    destruct (bucket_smooth_int_negative (map sum chunks) Hw)
      as (windows & -> & Hin).
    cbn [rbind]. now rewrite (mapM_mean_empty _ Hin).
  - destruct (Z.ltb_spec n 0) as [Hneg | Hpos].
    + unfold _reduce_data_for_peak_detection_int, bucket_reduction_int.
      rewrite range_int_none
        by (try assumption;
            replace (0 <? n)%Z with false
              by (symmetry; apply Z.ltb_ge; lia); lia).
      cbn [rbind map]. unfold bucket_smooth_int.
      rewrite range_int_none by (cbn; lia). reflexivity.
    + rewrite <- (Z2Nat.id n), <- (Z2Nat.id w) by lia.
      rewrite reduce_int_nat, reduce_cases, !Z2Nat.id by lia.
      replace (Z.to_nat n =? 0) with false
        by (symmetry; apply Nat.eqb_neq; lia).
      replace (Z.to_nat w =? 0) with (w =? 0)%Z; [reflexivity |].
      destruct (Z.eqb_spec w 0), (Nat.eqb_spec (Z.to_nat w) 0); lia.
Qed.

(** X1.  With sizes that are any two integers the reducer raises in three
    cases and no other: [ValueError] for a zero bucket size, from [range];
    [StatisticsError] for a negative window size, the last window being
    empty; [StatisticsError] for a zero window size on a row that is not
    empty, under a positive bucket size.  A negative bucket size gives no
    bucket and an empty result; otherwise the result is the reference
    sequence.  On sizes that are not negative this is the reducer of the
    statements above. *)
Theorem reduce_outcome raw_row :
  (forall n w : Z,
      _reduce_data_for_peak_detection_int raw_row n w
      = if (n =? 0)%Z then Raise ValueError
        else if (w <? 0)%Z then Raise StatisticsError
        else if (n <? 0)%Z then Ok []
        else if (w =? 0)%Z && negb (len raw_row =? 0)
             then Raise StatisticsError
        else Ok (reference_reduce raw_row (Z.to_nat n) (Z.to_nat w)))
  /\ (forall n w : nat,
        _reduce_data_for_peak_detection raw_row n w
        = _reduce_data_for_peak_detection_int raw_row
            (Z.of_nat n) (Z.of_nat w)).
Proof.
  split.
  - intros n w. apply reduce_int_cases.
  - intros n w. symmetry. apply reduce_int_nat.
Qed.

Lemma total_app l1 l2 : total (l1 ++ l2) = (total l1 + total l2)%R.
Proof.
  unfold total. induction l1 as [| x t IH]; simpl; [lra |].
  rewrite IH. lra.
Qed.

Lemma total_nonneg l : Forall (fun x => (0 <= x)%R) l -> (0 <= total l)%R.
Proof.
  unfold total. induction 1 as [| x t Hx _ IH]; simpl; lra.
Qed.

(** X2.  Counts that are not negative give a reduced row that is not
    negative. *)
Theorem reduce_nonneg raw_row n w reduced_row :
  Forall (fun x => (0 <= x)%R) raw_row ->
  _reduce_data_for_peak_detection raw_row n w = Ok reduced_row ->
  Forall (fun x => (0 <= x)%R) reduced_row.
Proof.
  intros Hraw Hr. rewrite reduce_cases in Hr.
  destruct (n =? 0); [discriminate |].
  destruct ((w =? 0) && negb (len raw_row =? 0)); [discriminate |].
  injection Hr as <-.
  unfold reference_reduce, reference_smoothed.
  apply Forall_map, Forall_forall. intros j _.
  assert (Ht : (0 <= total (firstn w (skipn j
                                 (reference_bucketed n raw_row))))%R).
  { apply total_nonneg, Forall_window.
    unfold reference_bucketed, reference_chunks.
    apply Forall_map, Forall_map, Forall_forall. intros k _.
    now apply total_nonneg, Forall_window. }
  destruct w as [| w].
  - simpl. unfold Rdiv. rewrite Rmult_0_l. lra.
  - apply Rmult_le_pos; [assumption |].
    left. apply Rinv_0_lt_compat. apply lt_0_INR. lia.
Qed.

Lemma reduce_nonneg_witness :
  Forall (fun x => (0 <= x)%R) [1; 2; 3; 4; 5]%R
  /\ _reduce_data_for_peak_detection [1; 2; 3; 4; 5]%R 2 1
     = Ok (reference_reduce [1; 2; 3; 4; 5]%R 2 1)
  /\ Forall (fun x => (0 <= x)%R) (reference_reduce [1; 2; 3; 4; 5]%R 2 1).
Proof.
  assert (Hraw : Forall (fun x => (0 <= x)%R) [1; 2; 3; 4; 5]%R)
    by (repeat constructor; lra).
  assert (Hr : _reduce_data_for_peak_detection [1; 2; 3; 4; 5]%R 2 1
               = Ok (reference_reduce [1; 2; 3; 4; 5]%R 2 1))
    by (apply reduce_ok; lia).
  split; [exact Hraw |]. split; [exact Hr |].
  exact (@reduce_nonneg _ 2 1 _ Hraw Hr).
Defined.

Lemma firstn_seq w : forall j m, firstn w (seq j m) = seq j (Nat.min w m).
Proof.
  induction w as [| w IH]; intros j [| m]; simpl; try reflexivity.
  now rewrite IH.
Qed.

Lemma firstn_plus {A} a b (l : list A) :
  firstn (a + b) l = firstn a l ++ firstn b (skipn a l).
Proof.
  revert l. induction a as [| a IH]; intros [| x t]; simpl;
    try reflexivity.
  - now rewrite firstn_nil.
  - now rewrite IH.
Qed.

(** The buckets of a window put together are a slice of the row. *)
Lemma total_buckets raw_row n w : forall j,
  total (map (fun k => total (firstn n (skipn (k * n) raw_row))) (seq j w))
  = total (firstn (w * n) (skipn (j * n) raw_row)).
Proof.
  induction w as [| w IH]; intros j; [reflexivity |].
  change (seq j (S w)) with (j :: seq (S j) w). cbn [map].
  change (S w * n) with (n + w * n).
  rewrite firstn_plus, total_app, skipn_skipn.
  change (total (?x :: ?t)) with (x + total t)%R.
  rewrite IH. reflexivity.
Qed.

(** X3.  Point [j] of the reduced row is the sum of the [smooth_size *
    reduce_size] raw samples that start at sample [j * reduce_size],
    divided by [smooth_size]; these samples all exist. *)
Theorem reduced_point_window raw_row n w j :
  0 < n -> 0 < w -> j < div_ceil (len raw_row) n - w ->
  exists reduced_row,
    _reduce_data_for_peak_detection raw_row n w = Ok reduced_row
    /\ nth_error reduced_row j
       = Some (total (firstn (w * n) (skipn (j * n) raw_row)) / INR w)%R
    /\ (j + w) * n < len raw_row.
Proof.
  intros Hn Hw Hj.
  exists (reference_reduce raw_row n w).
  split; [now apply reduce_ok |].
  split; [| apply lt_div_ceil; lia].
  unfold reference_reduce, reference_smoothed.
  rewrite len_reference_bucketed, nth_error_map, nth_error_seq.
  destruct (j <? div_ceil (len raw_row) n - w) eqn:E;
    [| apply Nat.ltb_ge in E; lia].
  simpl. do 2 f_equal.
  unfold reference_bucketed, reference_chunks.
  rewrite map_map, skipn_map, firstn_map, skipn_seq, firstn_seq.
  replace (Nat.min w (div_ceil (len raw_row) n - j)) with w by lia.
  apply total_buckets.
Qed.

Lemma reduced_point_window_witness :
  exists reduced_row,
    _reduce_data_for_peak_detection [1; 2; 3; 4; 5; 6; 7]%R 2 2
    = Ok reduced_row
    /\ nth_error reduced_row 1
       = Some (total [3; 4; 5; 6] / INR 2)%R.
Proof.
  destruct (@reduced_point_window [1; 2; 3; 4; 5; 6; 7]%R 2 2 1)
    as (reduced_row & Hr & Hj & _); [lia | lia | |].
  - unfold div_ceil. simpl. lia.
  - exists reduced_row. split; [exact Hr | exact Hj].
Defined.

Lemma reference_reduce_closed raw_row n w :
  reference_reduce raw_row n w
  = map (fun j => (total (firstn (w * n) (skipn (j * n) raw_row)) / INR w)%R)
        (seq 0 (div_ceil (len raw_row) n - w)).
Proof.
  unfold reference_reduce, reference_smoothed.
  rewrite len_reference_bucketed.
  apply map_ext_in. intros j Hj. apply in_seq in Hj.
  apply (f_equal (fun t => (t / INR w)%R)).
  unfold reference_bucketed, reference_chunks.
  rewrite map_map, skipn_map, firstn_map, skipn_seq, firstn_seq.
  replace (Nat.min w (div_ceil (len raw_row) n - j)) with w by lia.
  apply total_buckets.
Qed.

Lemma div_ceil_partial k n extra :
  0 < extra <= n -> div_ceil (k * n + extra) n = S k.
Proof.
  intros He. unfold div_ceil.
  replace (k * n + extra + n - 1) with ((extra - 1) + S k * n) by lia.
  rewrite Nat.div_add by lia. rewrite Nat.div_small by lia. lia.
Qed.

Lemma reference_reduce_last_bucket raw_row x n w k :
  0 < n -> len raw_row = k * n -> 0 < len x <= n ->
  reference_reduce (raw_row ++ x) n w
  = map (fun j => (total (firstn (w * n) (skipn (j * n) raw_row)) / INR w)%R)
        (seq 0 (S k - w)).
Proof.
  intros Hn Hk Hx. rewrite reference_reduce_closed.
  rewrite length_app, Hk, div_ceil_partial by assumption.
  apply map_ext_in. intros j Hj. apply in_seq in Hj.
  apply (f_equal (fun t => (total t / INR w)%R)).
  assert (Hin : j * n + w * n <= len raw_row) by nia.
  rewrite skipn_app, firstn_app, length_skipn.
  replace (j * n - len raw_row) with 0 by lia.
  replace (w * n - (len raw_row - j * n)) with 0 by lia.
  simpl. now rewrite app_nil_r.
Qed.

(** X4.  The samples of the last bucket never reach the reduced row: after
    full buckets, whatever the last bucket holds, and however many samples
    it has, the reduced row is the same. *)
Theorem last_bucket_ignored raw_row x y n w k :
  0 < n -> 0 < w -> len raw_row = k * n ->
  0 < len x <= n -> 0 < len y <= n ->
  _reduce_data_for_peak_detection (raw_row ++ x) n w
  = _reduce_data_for_peak_detection (raw_row ++ y) n w.
Proof.
  intros Hn Hw Hk Hx Hy.
  rewrite !reduce_ok by assumption. f_equal.
  rewrite (@reference_reduce_last_bucket raw_row x n w k) by assumption.
  now rewrite (@reference_reduce_last_bucket raw_row y n w k) by assumption.
Qed.

Lemma last_bucket_ignored_witness :
  _reduce_data_for_peak_detection ([1; 2; 3; 4] ++ [5; 6])%R 2 1
  = _reduce_data_for_peak_detection ([1; 2; 3; 4] ++ [100])%R 2 1.
Proof.
  apply (@last_bucket_ignored [1; 2; 3; 4]%R [5; 6]%R [100]%R 2 1 2);
    simpl; lia.
Defined.

(** ** The scan decider: how long a row must be to be scanned *)

Lemma squares_nonneg mean_y row :
  (0 <= total (map (fun x => (x - mean_y) * (x - mean_y)) row))%R.
Proof.
  apply total_nonneg, Forall_map, Forall_forall. intros x _.
  exact (Rle_0_sqr (x - mean_y)).
Qed.

(** Each point beyond the band takes its share of the sum of squares. *)
Lemma count_beyond_band mean_y t row :
  (0 <= t)%R ->
  (INR (len (filter (exceeds (mean_y + t)) row)
        + len (filter (falls_below (mean_y - t)) row)) * (t * t)
   <= total (map (fun x => (x - mean_y) * (x - mean_y)) row))%R.
Proof.
  intros Ht. induction row as [| x rest IH].
  - simpl. lra.
  - cbn [filter map]. change (total (?a :: ?l)) with (a + total l)%R.
    rewrite plus_INR in *.
    set (rest_sq :=
           total (map (fun x => ((x - mean_y) * (x - mean_y))%R) rest)) in *.
    set (above := INR (len (filter (exceeds (mean_y + t)) rest))) in *.
    set (below := INR (len (filter (falls_below (mean_y - t)) rest))) in *.
    pose proof (Rle_0_sqr (x - mean_y)) as Hsq. unfold Rsqr in Hsq.
    unfold exceeds at 1, falls_below at 1.
    destruct (Rgt_dec x (mean_y + t)); destruct (Rlt_dec x (mean_y - t));
      cbn [List.length]; rewrite ?S_INR; fold above below; try lra.
    + assert (t * t <= (x - mean_y) * (x - mean_y))%R by nra. nra.
    + assert (t * t <= (x - mean_y) * (x - mean_y))%R by nra. nra.
Qed.

Lemma squares_pos mean_y row x :
  In x row -> x <> mean_y ->
  (0 < total (map (fun x => (x - mean_y) * (x - mean_y)) row))%R.
Proof.
  intros Hin Hx. induction row as [| y rest IH]; [destruct Hin |].
  cbn [map]. change (total (?a :: ?l)) with (a + total l)%R.
  pose proof (squares_nonneg mean_y rest).
  destruct Hin as [-> | Hin].
  - pose proof (@Rsqr_pos_lt (x - mean_y) ltac:(lra)) as Hsq.
    unfold Rsqr in Hsq. lra.
  - specialize (IH Hin).
    pose proof (Rle_0_sqr (y - mean_y)) as Hsq. unfold Rsqr in Hsq. lra.
Qed.

(** The standard deviation, squared, is the sum of squares over [n - 1]. *)
Lemma stdev_squared row mean_y stdev_y :
  mean row = Ok mean_y -> stdev row = Ok stdev_y ->
  (stdev_y * stdev_y * INR (len row - 1)
   = total (map (fun x => (x - mean_y) * (x - mean_y)) row))%R.
Proof.
  intros Hm Hs.
  destruct row as [| x [| y t]]; try discriminate.
  rewrite mean_nonempty in Hm by (simpl; lia).
  assert (Em : mean_y = (total (x :: y :: t) / INR (len (x :: y :: t)))%R)
    by congruence.
  unfold stdev in Hs. rewrite !sum_total, <- Em in Hs.
  assert (Es : stdev_y
               = sqrt (total (map (fun x => (x - mean_y) * (x - mean_y))
                                  (x :: y :: t))
                       / INR (len (x :: y :: t) - 1))%R) by congruence.
  assert (Hpos : (0 < INR (len (x :: y :: t) - 1))%R)
    by (apply lt_0_INR; simpl; lia).
  rewrite Es, sqrt_sqrt.
  - field. lra.
  - apply Rmult_le_pos; [apply squares_nonneg |].
    left. now apply Rinv_0_lt_compat.
Qed.

Lemma beyond_band_bound row mean_y stdev_y :
  mean row = Ok mean_y -> stdev row = Ok stdev_y ->
  0 < len (filter (exceeds (mean_y + stdev_y * 1.5)) row)
      + len (filter (falls_below (mean_y - stdev_y * 1.5)) row) ->
  (INR (len (filter (exceeds (mean_y + stdev_y * 1.5)) row)
        + len (filter (falls_below (mean_y - stdev_y * 1.5)) row)) * 2.25
   <= INR (len row - 1))%R.
Proof.
  intros Hm Hs Hc.
  pose proof (stdev_nonneg _ Hs) as Hpos.
  pose proof (stdev_squared _ Hm Hs) as Hsq.
  pose proof (@count_beyond_band mean_y (stdev_y * 1.5) row ltac:(lra)) as Hb.
  set (c := len (filter (exceeds (mean_y + stdev_y * 1.5)) row)
            + len (filter (falls_below (mean_y - stdev_y * 1.5)) row)) in *.
  set (S := total (map (fun x => ((x - mean_y) * (x - mean_y))%R) row))
    in *.
  assert (HS : (0 < S)%R).
  { assert (Hex : exists x, In x row /\ x <> mean_y).
    { unfold c in Hc.
      destruct (filter (exceeds (mean_y + stdev_y * 1.5)) row)
        as [| x l] eqn:Ea.
      - destruct (filter (falls_below (mean_y - stdev_y * 1.5)) row)
          as [| x l] eqn:Eb; [simpl in Hc; lia |].
        assert (Hin : In x (filter (falls_below (mean_y - stdev_y * 1.5))
                                   row)) by (rewrite Eb; now left).
        apply filter_In in Hin as [Hin Hx]. exists x. split; [assumption |].
        unfold falls_below in Hx.
        destruct (Rlt_dec x (mean_y - stdev_y * 1.5)); [lra | discriminate].
      - assert (Hin : In x (filter (exceeds (mean_y + stdev_y * 1.5)) row))
          by (rewrite Ea; now left).
        apply filter_In in Hin as [Hin Hx]. exists x. split; [assumption |].
        unfold exceeds in Hx.
        destruct (Rgt_dec x (mean_y + stdev_y * 1.5)); [lra | discriminate]. }
    destruct Hex as (x & Hin & Hx).
    exact (@squares_pos mean_y row x Hin Hx). }
  assert (Hc0 : (0 <= INR c)%R) by apply pos_INR.
  assert (Hn0 : (0 <= INR (len row - 1))%R) by apply pos_INR.
  nra.
Qed.

Lemma scans_bound reduced_row peak_scan valley_scan :
  _determine_scans reduced_row = Ok (peak_scan, valley_scan) ->
  (peak_scan = true \/ valley_scan = true -> 15 <= len reduced_row)
  /\ (peak_scan = true /\ valley_scan = true -> 28 <= len reduced_row).
Proof.
  intros Hd.
  pose proof (determine_scans_len _ Hd) as Hlen.
  destruct (determine_scans_ok _ Hlen) as (m & s & Hm & Hs & _ & _).
  destruct (scan_flags_count _ Hm Hs Hd) as [Hp Hv].
  assert (Hmany : forall c,
             c <= len (filter (exceeds (m + s * 1.5)) reduced_row)
                  + len (filter (falls_below (m - s * 1.5)) reduced_row) ->
             0 < c -> c * 9 <= (len reduced_row - 1) * 4).
  { intros c Hc Hc0.
    pose proof (beyond_band_bound _ Hm Hs ltac:(lia)) as Hb.
    apply le_INR in Hc.
    apply INR_le. rewrite !mult_INR. simpl INR. lra. }
  split.
  - intros [-> | ->].
    + specialize (Hp eq_refl). specialize (Hmany 6 ltac:(lia) ltac:(lia)). lia.
    + specialize (Hv eq_refl). specialize (Hmany 6 ltac:(lia) ltac:(lia)). lia.
  - intros [-> ->]. specialize (Hp eq_refl). specialize (Hv eq_refl).
    specialize (Hmany 12 ltac:(lia) ltac:(lia)). lia.
Qed.

(** X5.  A row is scanned only when it is long: a scan for peaks or for
    valleys needs 15 reduced points, scans for both need 28. *)
Theorem scan_needs_long_row reduced_row peak_scan valley_scan :
  _determine_scans reduced_row = Ok (peak_scan, valley_scan) ->
  (peak_scan = true \/ valley_scan = true -> 15 <= len reduced_row)
  /\ (peak_scan = true /\ valley_scan = true -> 28 <= len reduced_row).
Proof. apply scans_bound. Qed.

Lemma scan_needs_long_row_witness :
  _determine_scans peak_row = Ok (true, false) /\ 15 <= len peak_row.
Proof.
  split; [exact peak_row_scans |].
  destruct (@scan_needs_long_row peak_row true false peak_row_scans)
    as [Hone _].
  apply Hone. now left.
Defined.

(** ** The detector: which rows raise, which rows are never scanned *)

Lemma determine_scans_short reduced_row :
  len reduced_row < 2 -> _determine_scans reduced_row = Raise StatisticsError.
Proof.
  destruct reduced_row as [| x [| y t]];
    [reflexivity | reflexivity | simpl; lia].
Qed.

Lemma fold_left_Rmax t : forall x,
  (x <= fold_left Rmax t x)%R
  /\ Forall (fun v => (v <= fold_left Rmax t x)%R) t
  /\ (fold_left Rmax t x = x \/ In (fold_left Rmax t x) t).
Proof.
  induction t as [| y t IH]; intros x; simpl.
  - split; [lra |]. split; [constructor | now left].
  - destruct (IH (Rmax x y)) as (Hge & Hall & Hin).
    pose proof (Rmax_l x y). pose proof (Rmax_r x y).
    split; [lra |]. split; [constructor; [lra | assumption] |].
    destruct Hin as [E | Hin]; [| right; now right].
    rewrite E. unfold Rmax. destruct (Rle_dec x y); [right | left]; auto.
Qed.

(** [max] returns a point of the row that no point exceeds. *)
Lemma max_greatest lst ymax :
  max lst = Ok ymax -> In ymax lst /\ Forall (fun v => (v <= ymax)%R) lst.
Proof.
  destruct lst as [| x t]; [discriminate |].
  intros E. injection E as <-.
  destruct (fold_left_Rmax t x) as (Hge & Hall & Hin).
  split.
  - destruct Hin as [-> | Hin]; [now left | now right].
  - constructor; assumption.
Qed.

Section DetectorFacts.

Variable search_properties : Type.
Variable find_peaks :
  list R -> R -> Z -> Z -> Z -> list Z * search_properties.

Abbreviation detect := (find_peaks_and_or_valleys find_peaks).
Abbreviation process := (process_row find_peaks).

(** X6.  For positive sizes the detector raises exactly on the rows of at
    most [reduce_size * (smooth_size + 1)] samples: it raises
    [StatisticsError] on them, before any search and leaving the world as
    it was; on a longer row it returns, having run two searches at most and
    written nothing. *)
Theorem detect_raises_on_short_rows raw_row n w world0 :
  0 < n -> 0 < w ->
  (len raw_row <= n * (w + 1) ->
   find_peaks_and_or_valleys find_peaks raw_row n w world0
   = (Raise StatisticsError, world0))
  /\ (n * (w + 1) < len raw_row ->
      exists found world1,
        find_peaks_and_or_valleys find_peaks raw_row n w world0
        = (Ok found, world1)
        /\ written world1 = written world0
        /\ len (searches world0) <= len (searches world1)
           <= len (searches world0) + 2).
Proof.
  intros Hn Hw.
  pose proof (reduce_ok raw_row Hn Hw) as Hr.
  pose proof (len_reference_reduce raw_row n w) as Hlen.
  split; intros HL.
  - assert (Hshort : len (reference_reduce raw_row n w) < 2).
    { rewrite Hlen.
      destruct (le_lt_dec (div_ceil (len raw_row) n) (w + 1)) as [| Hgt];
        [lia |].
      apply lt_div_ceil in Hgt; [nia | assumption]. }
    unfold find_peaks_and_or_valleys, bind, lift.
    now rewrite Hr, (determine_scans_short _ Hshort).
  - assert (Hlong : 2 <= len (reference_reduce raw_row n w)).
    { rewrite Hlen.
      pose proof (@div_ceil_gt (w + 1) (len raw_row) n Hn ltac:(nia)). lia. }
    destruct (determine_scans_ok _ Hlong) as (m & s & _ & _ & _ & Hd).
    specialize (Hd _ eq_refl).
    match type of Hd with _ = Ok (?p, ?v) =>
      set (peak_scan := p) in *; set (valley_scan := v) in * end.
    destruct (detect_searches find_peaks _ _ _ Hr Hd)
      as (ymax & m' & s' & _ & _ & _ & E).
    rewrite E. unfold searches_of, bind, ret.
    destruct peak_scan, valley_scan; rewrite ?searching_call; simpl;
      rewrite ?searching_call; do 2 eexists;
      (split; [reflexivity |]); simpl; rewrite ?length_app; simpl;
      split; (reflexivity || lia).
Qed.

(** X7.  When the valley scan runs, the signal handed to the search is the
    row turned upside down under its maximum: no point of it is negative
    and one is 0. *)
Theorem inverted_signal_nonneg raw_row n w reduced_row peak_scan world0 :
  _reduce_data_for_peak_detection raw_row n w = Ok reduced_row ->
  _determine_scans reduced_row = Ok (peak_scan, true) ->
  exists found world1 earlier call,
    detect raw_row n w world0 = (Ok found, world1)
    /\ searches world1 = earlier ++ [call]
    /\ len (sc_x call) = len reduced_row
    /\ Forall (fun v => (0 <= v)%R) (sc_x call)
    /\ In 0%R (sc_x call).
Proof.
  intros Hr Hd.
  destruct (detect_searches find_peaks _ _ _ Hr Hd)
    as (ymax & m & s & Hmax & _ & _ & E).
  destruct (max_greatest _ Hmax) as [Hin Hall].
  set (call := SearchCall (map (fun v => (ymax - v)%R) reduced_row)
                          (ymax - m + s * 1.5)%R 20%Z 4%Z 3%Z).
  assert (Hrun : exists found world1 before,
             detect raw_row n w world0 = (Ok found, world1)
             /\ searches world1 = before ++ [call]).
  { rewrite E. unfold searches_of, bind, ret.
    destruct peak_scan; rewrite ?searching_call; simpl;
      rewrite ?searching_call; do 3 eexists; split; reflexivity. }
  destruct Hrun as (found & world1 & before & Hrun & Hcalls).
  exists found, world1, before, call.
  split; [exact Hrun |].
  split; [exact Hcalls |].
  split; [apply length_map |].
  split.
  - apply Forall_map. rewrite Forall_forall in *. intros v Hv.
    specialize (Hall v Hv). simpl in Hall. lra.
  - apply in_map_iff. exists ymax. split; [lra | assumption].
Qed.

End DetectorFacts.

Lemma detect_raises_on_short_rows_witness :
  find_peaks_and_or_valleys sample_find_peaks [1; 2; 3]%R 2 1 (World [] [])
  = (Raise StatisticsError, World [] []).
Proof.
  destruct (@detect_raises_on_short_rows _ sample_find_peaks
              [1; 2; 3]%R 2 1 (World [] [])) as [Hshort _]; [lia | lia |].
  apply Hshort. simpl. lia.
Defined.

Lemma inverted_signal_nonneg_witness :
  _reduce_data_for_peak_detection valley_raw 1 1 = Ok valley_row
  /\ _determine_scans valley_row = Ok (false, true)
  /\ exists found world1 call,
      find_peaks_and_or_valleys sample_find_peaks valley_raw 1 1 (World [] [])
      = (Ok found, world1)
      /\ searches world1 = [call]
      /\ Forall (fun v => (0 <= v)%R) (sc_x call).
Proof.
  split; [exact valley_row_reduced |].
  split; [exact valley_row_scans |].
  destruct (@inverted_signal_nonneg _ sample_find_peaks valley_raw 1 1
              valley_row false (World [] [])
              valley_row_reduced valley_row_scans)
    as (found & world1 & earlier & call & Hrun & Hcalls & _ & Hpos & _).
  exists found, world1, call.
  split; [exact Hrun |]. split; [| exact Hpos].
  rewrite Hcalls.
  assert (Hone : len (searches world1) = 1).
  { destruct (detect_searches sample_find_peaks _ _ _
                valley_row_reduced valley_row_scans)
      as (ymax & m & s & _ & _ & _ & E).
    rewrite E in Hrun. unfold searches_of, bind, ret in Hrun.
    rewrite searching_call in Hrun. injection Hrun as _ <-. reflexivity. }
  rewrite Hcalls, length_app in Hone. simpl in Hone.
  destruct earlier; [reflexivity | simpl in Hone; lia].
Defined.

(** ** The run: rows that are always inactive, complete runs, missing
    identifiers *)

Lemma inactive_line id sra :
  tf_regulation_line [] [] id sra
  = ("0,0," ++ id ++ "," ++ sra ++ ",inactive,,,,," ++ newline)%string.
Proof.
  rewrite line_fields. unfold regulation_fields, position_field.
  cbn [len List.length nth_error regulation_category String.concat].
  rewrite !append_assoc. reflexivity.
Qed.

Lemma too_short_by_length raw_row :
  too_short raw_row = (len raw_row <=? 110).
Proof.
  unfold too_short.
  rewrite reduce_ok by (unfold reduce_size, smooth_size; lia).
  rewrite len_reference_reduce. unfold reduce_size, smooth_size.
  destruct (len raw_row <=? 110) eqn:E.
  - apply Nat.leb_le in E. apply Nat.ltb_lt.
    destruct (le_lt_dec (div_ceil (len raw_row) 10) 11) as [| Hgt]; [lia |].
    apply lt_div_ceil in Hgt; lia.
  - apply Nat.leb_gt in E. apply Nat.ltb_ge.
    pose proof (@div_ceil_gt 11 (len raw_row) 10 ltac:(lia) ltac:(lia)). lia.
Qed.

Section WholeRunFacts.

Variable search_properties : Type.
Variable find_peaks :
  list R -> R -> Z -> Z -> Z -> list Z * search_properties.

Abbreviation detect := (find_peaks_and_or_valleys find_peaks).
Abbreviation process := (process_row find_peaks).
Abbreviation run := (categorize_msd_file_into_tf_regulation find_peaks).

(** X8.  A row of 111 to 240 samples is always written as inactive, with no
    position, whatever its values and whatever the search would find: its
    reduced row has 14 points at most, too few for a scan, and no search is
    run. *)
Theorem short_rows_inactive sra ids raw_data i raw_row id world0 :
  nth_error raw_data i = Some raw_row ->
  nth_error ids i = Some id ->
  110 < len raw_row <= 240 ->
  process sra ids raw_data i world0
  = (Ok tt,
     World (searches world0)
           (written world0
            ++ [("0,0," ++ clean_id id ++ "," ++ sra ++ ",inactive,,,,,"
                 ++ newline)%string])).
Proof.
  intros Hrow Hid [Hlo Hhi].
  assert (Hr : _reduce_data_for_peak_detection raw_row reduce_size smooth_size
               = Ok (reference_reduce raw_row reduce_size smooth_size))
    by (apply reduce_ok; unfold reduce_size, smooth_size; lia).
  pose proof (len_reference_reduce raw_row reduce_size smooth_size) as Hlen.
  unfold reduce_size, smooth_size in Hlen.
  assert (Hsmall : 2 <= len (reference_reduce raw_row reduce_size smooth_size)
                   <= 14).
  { unfold reduce_size, smooth_size. rewrite Hlen.
    pose proof (@div_ceil_gt 11 (len raw_row) 10 ltac:(lia) ltac:(lia)).
    destruct (le_lt_dec (div_ceil (len raw_row) 10) 24) as [| Hgt]; [lia |].
    apply lt_div_ceil in Hgt; lia. }
  destruct (determine_scans_ok _ (proj1 Hsmall))
    as (m & s & _ & _ & _ & Hd).
  specialize (Hd _ eq_refl).
  match type of Hd with _ = Ok (?p, ?v) =>
    set (peak_scan := p) in *; set (valley_scan := v) in * end.
  destruct (scans_bound _ Hd) as [Hone _].
  assert (Hp : peak_scan = false)
    by (destruct peak_scan; [specialize (Hone (or_introl eq_refl)); lia
                            | reflexivity]).
  assert (Hv : valley_scan = false)
    by (destruct valley_scan; [specialize (Hone (or_intror eq_refl)); lia
                              | reflexivity]).
  rewrite Hp, Hv in Hd.
  destruct (detect_searches find_peaks _ _ _ Hr Hd)
    as (ymax & m' & s' & _ & _ & _ & E).
  specialize (E world0).
  change (searches_of find_peaks
            (reference_reduce raw_row reduce_size smooth_size)
            false false ymax m' s' world0)
    with (Ok (reference_reduce raw_row reduce_size smooth_size,
              @nil Z, @nil Z,
              EmptyList search_properties, EmptyList search_properties),
          world0) in E.
  erewrite process_detected by eassumption.
  now rewrite inactive_line.
Qed.

Lemma skipn_nth_error {A} (l : list A) : forall a x,
  nth_error l a = Some x -> skipn a l = x :: skipn (S a) l.
Proof.
  induction l as [| y t IH]; intros [| a] x H; try discriminate.
  - injection H as ->. reflexivity.
  - simpl in H. now apply IH.
Qed.

(** A row that is not too short gets a line with its own identifier. *)
Lemma process_row_line sra ids raw_data i raw_row id world0 :
  nth_error raw_data i = Some raw_row ->
  too_short raw_row = false ->
  nth_error ids i = Some id ->
  exists world1 peaks valleys,
    process sra ids raw_data i world0 = (Ok tt, world1)
    /\ written world1
       = written world0
         ++ [tf_regulation_line peaks valleys (clean_id id) sra].
Proof.
  intros Hrow Hlong Hid.
  pose proof (too_short_false _ Hlong) as Hlen.
  assert (Hr : _reduce_data_for_peak_detection raw_row reduce_size smooth_size
               = Ok (reference_reduce raw_row reduce_size smooth_size))
    by (apply reduce_ok; unfold reduce_size, smooth_size; lia).
  destruct (determine_scans_ok _ Hlen) as (m & s & _ & _ & _ & Hd).
  specialize (Hd _ eq_refl).
  match type of Hd with _ = Ok (?p, ?v) =>
    set (peak_scan := p) in *; set (valley_scan := v) in * end.
  destruct (detect_searches find_peaks _ _ _ Hr Hd)
    as (ymax & m' & s' & _ & _ & _ & E).
  destruct (@searches_of_ok _ find_peaks
              (reference_reduce raw_row reduce_size smooth_size)
              peak_scan valley_scan ymax m' s' world0)
    as ([[[[row peaks] valleys] pp] vp] & world' & Hrun & _ & _).
  rewrite <- E in Hrun.
  eexists. exists peaks, valleys. split.
  - eapply process_detected; eassumption.
  - reflexivity.
Qed.

Lemma good_rows_lines sra ids raw_data k : forall a world0,
  (forall i, a <= i < a + k ->
     exists raw_row,
       nth_error raw_data i = Some raw_row /\ too_short raw_row = false) ->
  a + k <= len ids ->
  exists world1 lines,
    for_each (seq a k) (process sra ids raw_data) world0 = (Ok tt, world1)
    /\ written world1 = written world0 ++ lines
    /\ Forall2
         (fun line id =>
            exists peaks valleys,
              line = tf_regulation_line peaks valleys (clean_id id) sra)
         lines (firstn k (skipn a ids)).
Proof.
  induction k as [| k IH]; intros a world0 Hgood Hids.
  - exists world0, []. simpl. rewrite app_nil_r. repeat split. constructor.
  - destruct (Hgood a ltac:(lia)) as (raw_row & Hrow & Hlong).
    destruct (nth_error ids a) as [id |] eqn:Hid;
      [| apply nth_error_None in Hid; lia].
    destruct (@process_row_line sra ids raw_data a raw_row id world0
                Hrow Hlong Hid)
      as (world' & peaks & valleys & Hp & Hw).
    destruct (IH (S a) world') as (world1 & lines & Hloop & Hw1 & Hall).
    { intros i Hi. apply Hgood. lia. }
    { lia. }
    exists world1, (tf_regulation_line peaks valleys (clean_id id) sra
                    :: lines).
    simpl for_each. unfold bind. rewrite Hp.
    split; [exact Hloop |].
    split; [rewrite Hw1, Hw, <- app_assoc; reflexivity |].
    rewrite (skipn_nth_error _ _ Hid). cbn [firstn].
    constructor; [now exists peaks, valleys | exact Hall].
Qed.

(** X9.  When every row has more than 110 samples and no row lacks its
    identifier, the run ends without an exception and the destination holds
    one line for each row, whatever it held before; the lines come in the
    order of the rows, line [k] with the identifier of row [k]. *)
Theorem run_completes sra ids raw_data world0 :
  Forall (fun raw_row => 110 < len raw_row) raw_data ->
  len raw_data <= len ids ->
  exists world1,
    categorize_msd_file_into_tf_regulation find_peaks sra ids raw_data
      world0
    = (Ok tt, world1)
    /\ len (written world1) = len raw_data
    /\ Forall2
         (fun line id =>
            exists peaks valleys,
              line = tf_regulation_line peaks valleys (clean_id id) sra)
         (written world1) (firstn (len raw_data) ids).
Proof.
  intros Hlong Hids.
  unfold categorize_msd_file_into_tf_regulation, bind, open_w.
  rewrite range_unit.
  destruct (@good_rows_lines sra ids raw_data (len raw_data)
              0 (World (searches world0) []))
    as (world1 & lines & Hloop & Hw & Hall).
  { intros i Hi.
    destruct (nth_error raw_data i) as [raw_row |] eqn:Hrow;
      [| apply nth_error_None in Hrow; lia].
    exists raw_row. split; [reflexivity |].
    rewrite too_short_by_length. apply Nat.leb_gt.
    rewrite Forall_forall in Hlong. apply Hlong.
    eapply nth_error_In. exact Hrow. }
  { lia. }
  simpl in Hw. subst lines. change (skipn 0 ids) with ids in Hall.
  exists world1. split; [exact Hloop |].
  split; [| exact Hall].
  apply Forall2_length in Hall. rewrite Hall, length_firstn. lia.
Qed.

(** A row with more than 110 samples and no identifier: the detector has
    run, then [ids[i]] raises and nothing is written. *)
Lemma process_row_no_id sra ids raw_data i raw_row world0 :
  nth_error raw_data i = Some raw_row ->
  110 < len raw_row ->
  nth_error ids i = None ->
  exists world1,
    process sra ids raw_data i world0 = (Raise IndexError, world1)
    /\ written world1 = written world0.
Proof.
  intros Hrow Hlong Hid.
  assert (Hlen : 2 <= len (reference_reduce raw_row reduce_size smooth_size)).
  { apply too_short_false. rewrite too_short_by_length.
    now apply Nat.leb_gt. }
  assert (Hr : _reduce_data_for_peak_detection raw_row reduce_size smooth_size
               = Ok (reference_reduce raw_row reduce_size smooth_size))
    by (apply reduce_ok; unfold reduce_size, smooth_size; lia).
  destruct (determine_scans_ok _ Hlen) as (m & s & _ & _ & _ & Hd).
  specialize (Hd _ eq_refl).
  match type of Hd with _ = Ok (?p, ?v) =>
    set (peak_scan := p) in *; set (valley_scan := v) in * end.
  destruct (detect_searches find_peaks _ _ _ Hr Hd)
    as (ymax & m' & s' & _ & _ & _ & E).
  destruct (@searches_of_ok _ find_peaks
              (reference_reduce raw_row reduce_size smooth_size)
              peak_scan valley_scan ymax m' s' world0)
    as ([[[[row peaks] valleys] pp] vp] & world1 & Hrun & _ & Hw).
  rewrite <- E in Hrun.
  exists world1. split; [| exact Hw].
  unfold process_row, bind, lift, index.
  now rewrite Hrow, Hrun, Hid.
Qed.

(** X10.  When every row has more than 110 samples and the identifiers run
    out before the rows do, the run ends on [IndexError] at the first row
    without an identifier, one line written for each identifier. *)
Theorem run_out_of_identifiers sra ids raw_data world0 :
  Forall (fun raw_row => 110 < len raw_row) raw_data ->
  len ids < len raw_data ->
  exists world1,
    categorize_msd_file_into_tf_regulation find_peaks sra ids raw_data
      world0
    = (Raise IndexError, world1)
    /\ len (written world1) = len ids.
Proof.
  intros Hlong Hids.
  rewrite Forall_forall in Hlong.
  unfold categorize_msd_file_into_tf_regulation, bind, open_w.
  rewrite range_unit.
  replace (len raw_data) with (len ids + S (len raw_data - S (len ids)))
    by lia.
  rewrite seq_app, for_each_app. simpl (0 + len ids).
  destruct (@good_rows_loop _ find_peaks sra ids raw_data (len ids)
              0 (World (searches world0) []))
    as (world' & Hloop & Hw).
  { intros i Hi.
    destruct (nth_error raw_data i) as [raw_row |] eqn:Hrow;
      [| apply nth_error_None in Hrow; lia].
    destruct (nth_error ids i) as [id |] eqn:Hid;
      [| apply nth_error_None in Hid; lia].
    exists raw_row, id. split; [reflexivity |]. split; [| reflexivity].
    rewrite too_short_by_length. apply Nat.leb_gt.
    apply Hlong. eapply nth_error_In. exact Hrow. }
  rewrite Hloop.
  destruct (nth_error raw_data (len ids)) as [raw_row |] eqn:Hrow;
    [| apply nth_error_None in Hrow; lia].
  destruct (@process_row_no_id sra ids raw_data (len ids) raw_row world')
    as (world1 & Hp & Hw1).
  - exact Hrow.
  - apply Hlong. eapply nth_error_In. exact Hrow.
  - apply nth_error_None. lia.
  - exists world1. simpl. unfold bind. rewrite Hp.
    split; [reflexivity |]. rewrite Hw1. simpl in Hw. lia.
Qed.

End WholeRunFacts.

Lemma short_rows_inactive_witness :
  process_row sample_find_peaks "SRR"%string ["HO_x"]%string
    [repeat 7%R 150] 0 (World [] [])
  = (Ok tt, World [] [("0,0,x,SRR,inactive,,,,," ++ newline)%string]).
Proof.
  apply (@short_rows_inactive _ sample_find_peaks "SRR"%string
           ["HO_x"]%string [repeat 7%R 150] 0 (repeat 7%R 150)
           "HO_x"%string (World [] []) eq_refl eq_refl).
  rewrite repeat_length. lia.
Defined.

Lemma run_completes_witness :
  exists world1,
    categorize_msd_file_into_tf_regulation sample_find_peaks "SRR"%string
      ["a"; "b"]%string [zero_raw; repeat 1%R 200] (World [] [])
    = (Ok tt, world1)
    /\ len (written world1) = 2.
Proof.
  destruct (@run_completes _ sample_find_peaks "SRR"%string
              ["a"; "b"]%string [zero_raw; repeat 1%R 200] (World [] []))
    as (world1 & Hrun & Hlen & _).
  - repeat constructor; unfold zero_raw; rewrite repeat_length; lia.
  - simpl. lia.
  - exists world1. split; [exact Hrun | exact Hlen].
Defined.

Lemma run_out_of_identifiers_witness :
  exists world1,
    categorize_msd_file_into_tf_regulation sample_find_peaks "SRR"%string
      ["a"]%string [zero_raw; zero_raw] (World [] [])
    = (Raise IndexError, world1)
    /\ len (written world1) = 1.
Proof.
  apply (@run_out_of_identifiers _ sample_find_peaks "SRR"%string
           ["a"]%string [zero_raw; zero_raw] (World [] [])).
  - repeat constructor; unfold zero_raw; rewrite repeat_length; lia.
  - simpl. lia.
Defined.

(** ** Positions and reduced points *)

(** X11.  The position of a reduced index can be turned back into the
    index, and positions grow with the indices: two peaks are never written
    at the same position. *)
Theorem position_round_trip ss rs i j :
  0 < rs ->
  ((new_loc ss rs i + 1500) / Z.of_nat rs - Z.of_nat ss / 2 = i)%Z
  /\ ((new_loc ss rs i < new_loc ss rs j)%Z <-> (i < j)%Z).
Proof.
  intros Hrs. rewrite !new_loc_floor. split.
  - replace ((i + Z.of_nat ss / 2) * Z.of_nat rs - 1500 + 1500)%Z
      with ((i + Z.of_nat ss / 2) * Z.of_nat rs)%Z by lia.
    rewrite Z.div_mul by lia. lia.
  - split; intros H; nia.
Qed.

Lemma position_round_trip_witness :
  ((new_loc 10 10 5 + 1500) / 10 - 10 / 2 = 5)%Z.
Proof.
  destruct (@position_round_trip 10 10 5%Z 6%Z ltac:(lia)) as [H _].
  exact H.
Defined.

(** X12.  For an even window, the position written for reduced index [j]
    is, 1500 apart, the middle of the stretch of raw samples that point [j]
    averages, from sample [j * reduce_size] to sample
    [(j + smooth_size) * reduce_size]. *)
Theorem position_is_window_centre ss rs j :
  Nat.even ss = true ->
  (2 * (new_loc ss rs (Z.of_nat j) + 1500)
   = Z.of_nat (j * rs) + Z.of_nat ((j + ss) * rs))%Z.
Proof.
  intros Heven. rewrite new_loc_floor.
  apply Nat.even_spec in Heven as [h ->].
  replace (Z.of_nat (2 * h) / 2)%Z with (Z.of_nat h)
    by (rewrite Nat2Z.inj_mul, Z.mul_comm, Z.div_mul; lia).
  lia.
Qed.

Lemma position_is_window_centre_witness :
  (2 * (new_loc 10 10 5 + 1500) = 50 + 150)%Z.
Proof.
  exact (@position_is_window_centre 10 10 5 eq_refl).
Defined.

(** ** Grouping: encoding and decoding *)

(** X13.  Grouping and expanding are inverse to each other: the groups of
    a sequence expand to the sequence, their counts add up to its length,
    and a list of runs that are not empty and change level at every step is
    the grouping of what it expands to. *)
Theorem groupby_expand_round_trip :
  (forall signals,
      expand (groupby_counts signals) = signals
      /\ list_sum (map snd (groupby_counts signals)) = len signals)
  /\ (forall runs,
        Forall (fun run => 0 < snd run) runs -> adjacent_differ runs ->
        groupby_counts (expand runs) = runs).
Proof.
  assert (Hlen : forall runs, len (expand runs) = list_sum (map snd runs)).
  { induction runs as [| [k c] t IH]; [reflexivity |].
    change (expand ((k, c) :: t)) with (repeat k c ++ expand t).
    rewrite length_app, repeat_length, IH. reflexivity. }
  split.
  - intros signals.
    destruct (groupby_counts_rle signals) as (E & _ & _).
    split; [exact E |]. rewrite <- Hlen. now rewrite E.
  - intros runs Hpos Hadj.
    apply run_length_encoding_unique with (levels := expand runs).
    + apply groupby_counts_rle.
    + repeat split; assumption.
Qed.

Lemma groupby_expand_round_trip_witness :
  groupby_counts (expand [(0%Z, 2); (1%Z, 3); (0%Z, 1)])
  = [(0%Z, 2); (1%Z, 3); (0%Z, 1)].
Proof.
  destruct groupby_expand_round_trip as [_ H].
  apply H.
  - repeat constructor.
  - simpl. repeat split; discriminate.
Defined.

(** ** The identifier *)

Open Scope string_scope.

Lemma replace_from_absent old new s :
  occurs old s = false -> replace_from 0 s old new = s.
Proof.
  induction s as [| c t IH]; [reflexivity |].
  cbn [occurs replace_from]. intros H.
  apply orb_false_iff in H as [Hp Ho].
  rewrite Hp. now rewrite IH.
Qed.

Lemma prefix_app old s : prefix old (old ++ s) = true.
Proof.
  induction old as [| c o IH]; [now destruct s |].
  simpl. now destruct (ascii_dec c c).
Qed.

Lemma replace_from_skip old new pre : forall s,
  replace_from (String.length pre) (pre ++ s) old new
  = replace_from 0 s old new.
Proof. induction pre as [| c t IH]; intros s; [reflexivity | apply IH]. Qed.

(** An occurrence at the head is replaced and the rest is gone through. *)
Lemma replace_leading c o new s :
  replace (String c o ++ s) (String c o) new
  = new ++ replace s (String c o) new.
Proof.
  unfold replace.
  change (String c o ++ s) with (String c (o ++ s)).
  cbn [replace_from].
  change (String c (o ++ s)) with (String c o ++ s).
  rewrite prefix_app.
  change (String.length (String c o) - 1) with (String.length o - 0).
  rewrite Nat.sub_0_r. now rewrite replace_from_skip.
Qed.

(** What comes before the first occurrence is kept. *)
Lemma replace_past old new name rest :
  starts_within old name rest = false ->
  replace (name ++ rest) old new = name ++ replace rest old new.
Proof.
  unfold replace. induction name as [| c t IH]; [reflexivity |].
  cbn [starts_within]. intros H.
  apply orb_false_iff in H as [Hp Hs].
  change (String c t ++ rest) with (String c (t ++ rest)) in *.
  cbn [replace_from]. rewrite Hp. simpl. now rewrite IH.
Qed.

Lemma underscore_free name rest tail :
  occurs "_" name = false ->
  starts_within (String "_" tail) name rest = false.
Proof.
  induction name as [| c t IH]; [reflexivity |].
  cbn [occurs starts_within]. intros H.
  apply orb_false_iff in H as [Hp Ho].
  rewrite (IH Ho), orb_false_r.
  change (String c t ++ rest) with (String c (t ++ rest)).
  cbn [prefix] in Hp |- *.
  destruct (ascii_dec "_" c); [| reflexivity].
  destruct t; discriminate.
Qed.

(** X16.  An identifier in which neither tag occurs is written as it is. *)
Theorem clean_id_untagged id :
  occurs "HO_" id = false ->
  occurs "_HUMAN.H10MO" id = false ->
  clean_id id = id.
Proof.
  intros Hp Hs. unfold clean_id, replace.
  rewrite (@replace_from_absent _ "" _ Hp).
  now apply replace_from_absent.
Qed.

Lemma clean_id_untagged_witness : clean_id "FOXA1" = "FOXA1".
Proof. exact (@clean_id_untagged "FOXA1" eq_refl eq_refl). Defined.

(** X17.  An identifier made of the prefix tag, a name, the suffix tag and
    a tail is written as the name and the tail, when the name has no
    underscore, the suffix tag does not occur in the tail and the prefix tag
    occurs nowhere after the head. *)
Theorem clean_id_tagged name tail :
  occurs "HO_" (name ++ "_HUMAN.H10MO" ++ tail) = false ->
  occurs "_" name = false ->
  occurs "_HUMAN.H10MO" tail = false ->
  clean_id ("HO_" ++ name ++ "_HUMAN.H10MO" ++ tail) = name ++ tail.
Proof.
  intros Hp Hn Ht. unfold clean_id.
  rewrite (replace_leading "H" "O_" "" (name ++ "_HUMAN.H10MO" ++ tail)).
  change ("" ++ ?x) with x.
  unfold replace at 2. rewrite (@replace_from_absent _ "" _ Hp).
  rewrite replace_past by now apply underscore_free.
  rewrite (replace_leading "_" "HUMAN.H10MO" "" tail).
  change ("" ++ ?x) with x.
  unfold replace. now rewrite (@replace_from_absent _ "" _ Ht).
Qed.

Lemma clean_id_tagged_witness :
  clean_id "HO_FOXA1_HUMAN.H10MO.A" = "FOXA1.A".
Proof. exact (@clean_id_tagged "FOXA1" ".A" eq_refl eq_refl eq_refl). Defined.

Close Scope string_scope.

(** ** Flat rows *)

Lemma reference_reduce_constant raw_row n w c :
  0 < n -> Forall (eq c) raw_row ->
  Forall (eq (INR (w * n) * c / INR w)%R) (reference_reduce raw_row n w).
Proof.
  intros Hn Hc. rewrite reference_reduce_closed.
  apply Forall_map, Forall_forall. intros j Hj. apply in_seq in Hj.
  assert (Hin : (j + w) * n < len raw_row) by (apply lt_div_ceil; lia).
  rewrite (@total_constant c (firstn (w * n) (skipn (j * n) raw_row)))
    by now apply Forall_window.
  rewrite length_firstn, length_skipn.
  replace (Nat.min (w * n) (len raw_row - j * n)) with (w * n) by nia.
  reflexivity.
Qed.

Section FlatRowFacts.

Variable search_properties : Type.
Variable find_peaks :
  list R -> R -> Z -> Z -> Z -> list Z * search_properties.

Abbreviation process := (process_row find_peaks).

(** A row that the decider leaves unscanned is written as inactive. *)
Lemma process_unscanned sra ids raw_data i raw_row id reduced_row world0 :
  nth_error raw_data i = Some raw_row ->
  nth_error ids i = Some id ->
  _reduce_data_for_peak_detection raw_row reduce_size smooth_size
  = Ok reduced_row ->
  _determine_scans reduced_row = Ok (false, false) ->
  process sra ids raw_data i world0
  = (Ok tt,
     World (searches world0)
           (written world0
            ++ [("0,0," ++ clean_id id ++ "," ++ sra ++ ",inactive,,,,,"
                 ++ newline)%string])).
Proof.
  intros Hrow Hid Hr Hd.
  destruct (detect_searches find_peaks _ _ _ Hr Hd)
    as (ymax & m & s & _ & _ & _ & E).
  specialize (E world0).
  change (searches_of find_peaks reduced_row false false ymax m s world0)
    with (Ok (reduced_row, @nil Z, @nil Z,
              EmptyList search_properties, EmptyList search_properties),
          world0) in E.
  erewrite process_detected by eassumption.
  now rewrite inactive_line.
Qed.

(** X18.  A flat row, all its samples equal, of more than 110 samples is
    written as inactive with no position, and no search is run for it. *)
Theorem flat_rows_inactive sra ids raw_data i raw_row id c world0 :
  nth_error raw_data i = Some raw_row ->
  nth_error ids i = Some id ->
  Forall (eq c) raw_row ->
  110 < len raw_row ->
  process sra ids raw_data i world0
  = (Ok tt,
     World (searches world0)
           (written world0
            ++ [("0,0," ++ clean_id id ++ "," ++ sra ++ ",inactive,,,,,"
                 ++ newline)%string])).
Proof.
  intros Hrow Hid Hc Hlong.
  apply process_unscanned
    with (raw_row := raw_row)
         (reduced_row := reference_reduce raw_row reduce_size smooth_size);
    try assumption.
  - apply reduce_ok; unfold reduce_size, smooth_size; lia.
  - apply determine_scans_constant
      with (c := (INR (smooth_size * reduce_size) * c / INR smooth_size)%R).
    + apply too_short_false. rewrite too_short_by_length.
      now apply Nat.leb_gt.
    + apply reference_reduce_constant; [unfold reduce_size; lia | assumption].
Qed.

End FlatRowFacts.

Lemma flat_rows_inactive_witness :
  process_row sample_find_peaks "SRR"%string ["HO_x"]%string
    [repeat 7%R 300] 0 (World [] [])
  = (Ok tt, World [] [("0,0,x,SRR,inactive,,,,," ++ newline)%string]).
Proof.
  apply (@flat_rows_inactive _ sample_find_peaks "SRR"%string
           ["HO_x"]%string [repeat 7%R 300] 0 (repeat 7%R 300)
           "HO_x"%string 7%R (World [] []) eq_refl eq_refl).
  - apply Forall_forall. intros x Hx. now apply repeat_spec in Hx.
  - rewrite repeat_length. lia.
Defined.

(** ** The scan decision and the search heights on floats *)

Lemma signal_level_b64_one mean_y stdev_15 x :
  signal_level_b64 mean_y stdev_15 x = 1%Z
  <-> (mean_y + stdev_15 <? x)%float = true.
Proof.
  unfold signal_level_b64.
  destruct (mean_y + stdev_15 <? x)%float; [tauto |].
  destruct (x <? mean_y - stdev_15)%float; split; discriminate.
Qed.

Lemma signal_level_b64_minus_one mean_y stdev_15 x :
  signal_level_b64 mean_y stdev_15 x = (-1)%Z ->
  (x <? mean_y - stdev_15)%float = true.
Proof.
  unfold signal_level_b64.
  destruct (mean_y + stdev_15 <? x)%float; [discriminate |].
  destruct (x <? mean_y - stdev_15)%float; [reflexivity | discriminate].
Qed.

Lemma count_level_b64_above mean_y stdev_15 row :
  count_occ Z.eq_dec (map (signal_level_b64 mean_y stdev_15) row) 1%Z
  = len (filter (fun v => (mean_y + stdev_15 <? v)%float) row).
Proof.
  induction row as [| x t IH]; [reflexivity |].
  cbn [map filter].
  destruct (mean_y + stdev_15 <? x)%float eqn:Ex.
  - rewrite count_occ_cons_eq by now apply signal_level_b64_one.
    simpl. now rewrite IH.
  - rewrite count_occ_cons_neq; [assumption |].
    intros E. apply signal_level_b64_one in E. congruence.
Qed.

Lemma count_level_b64_below mean_y stdev_15 row :
  count_occ Z.eq_dec (map (signal_level_b64 mean_y stdev_15) row) (-1)%Z
  <= len (filter (fun v => (v <? mean_y - stdev_15)%float) row).
Proof.
  induction row as [| x t IH]; [reflexivity |].
  cbn [map filter].
  destruct (Z.eq_dec (signal_level_b64 mean_y stdev_15 x) (-1)) as [E | E].
  - rewrite count_occ_cons_eq by assumption.
    rewrite (signal_level_b64_minus_one _ _ _ E). simpl. lia.
  - rewrite count_occ_cons_neq by assumption.
    destruct (x <? mean_y - stdev_15)%float; simpl; lia.
Qed.

(** X20.  On floats as over the reals: when the decider asks for the peak
    scan, six points of the row or more are above the float
    [mean_y + stdev_15], and that float is the height of the peak search;
    when it asks for the valley scan, six points or more are below the
    float [mean_y - stdev_15], and the inverted signal [ymax - y] is
    searched with the height [(ymax - mean_y) + stdev_15].  The searches
    made are those two, each made when its flag is set and not otherwise,
    the peak search first. *)
Theorem float_scans_and_heights reduced_row peak_scan valley_scan :
  _determine_scans_b64 reduced_row = Ok (peak_scan, valley_scan) ->
  exists ymax mean_y stdev_y,
    max_b64 reduced_row = Ok ymax
    /\ mean_b64 reduced_row = Ok mean_y
    /\ stdev_b64 reduced_row = Ok stdev_y
    /\ find_peaks_and_or_valleys_b64 reduced_row
       = Ok ((if peak_scan
              then [SearchCallB64 reduced_row
                                  (mean_y + stdev_y * 1.5)%float 20 4 3]
              else [])
             ++ (if valley_scan
                 then [SearchCallB64
                         (map (fun v => (ymax - v)%float) reduced_row)
                         (ymax - mean_y + stdev_y * 1.5)%float 20 4 3]
                 else []))
    /\ (peak_scan = true ->
        6 <= len (filter (fun v => (mean_y + stdev_y * 1.5 <? v)%float)
                         reduced_row))
    /\ (valley_scan = true ->
        6 <= len (filter (fun v => (v <? mean_y - stdev_y * 1.5)%float)
                         reduced_row)).
Proof.
  intros Hd.
  unfold find_peaks_and_or_valleys_b64. rewrite Hd. cbn [rbind].
  unfold _determine_scans_b64 in Hd.
  destruct (mean_b64 reduced_row) as [mean_y | e] eqn:Hm;
    [| discriminate Hd].
  destruct (stdev_b64 reduced_row) as [stdev_y | e] eqn:Hs;
    [| discriminate Hd].
  cbn [rbind] in Hd |- *.
  destruct reduced_row as [| x t]; [discriminate Hm |].
  set (row := x :: t) in *.
  exists (fold_left (fun maxitem item =>
                       if (maxitem <? item)%float then item else maxitem)
                    t x), mean_y, stdev_y.
  split; [reflexivity |]. split; [reflexivity |]. split; [reflexivity |].
  split; [reflexivity |].
  rewrite scan_loop in Hd. cbn [orb] in Hd.
  assert (Hp :
           existsb (fun g => (fst g =? 1)%Z && (scan_threshold <? snd g))
             (groupby_counts
                (map (signal_level_b64 mean_y (stdev_y * 1.5)) row))
           = peak_scan) by congruence.
  assert (Hv :
           existsb (fun g => (fst g =? -1)%Z && (scan_threshold <? snd g))
             (groupby_counts
                (map (signal_level_b64 mean_y (stdev_y * 1.5)) row))
           = valley_scan) by congruence.
  pose proof (groupby_counts_rle
                (map (signal_level_b64 mean_y (stdev_y * 1.5)) row))
    as (Hx & _ & _).
  split; intros E; rewrite E in *.
  - apply existsb_long_run in Hp as (n & Hin & Hn).
    apply count_level_in_runs in Hin.
    rewrite Hx, count_level_b64_above in Hin. lia.
  - apply existsb_long_run in Hv as (n & Hin & Hn).
    apply count_level_in_runs in Hin. rewrite Hx in Hin.
    pose proof (count_level_b64_below mean_y (stdev_y * 1.5) row). lia.
Qed.

Lemma float_scans_and_heights_witness :
  _determine_scans_b64 tie_row = Ok (false, true)
  /\ exists ymax mean_y stdev_y,
      find_peaks_and_or_valleys_b64 tie_row
      = Ok [SearchCallB64 (map (fun v => (ymax - v)%float) tie_row)
                          (ymax - mean_y + stdev_y * 1.5)%float 20 4 3]
      /\ 6 <= len (filter (fun v => (v <? mean_y - stdev_y * 1.5)%float)
                          tie_row).
Proof.
  assert (Hscans : _determine_scans_b64 tie_row = Ok (false, true))
    by (vm_compute; reflexivity).
  split; [exact Hscans |].
  destruct (float_scans_and_heights tie_row Hscans)
    as (ymax & mean_y & stdev_y & _ & _ & _ & Hcalls & _ & Hvalley).
  exists ymax, mean_y, stdev_y.
  split; [exact Hcalls | exact (Hvalley eq_refl)].
Defined.
